(** * SistemaTelecom: an ASK modem simulation

    Shallow embedding of [deepseek_python_20250428_5dae0e.py], the class
    [SistemaTelecom]: construction, bit generation, ASK modulation, additive
    noise, envelope demodulation and the bit error rate.

    Conventions of the embedding.
    - Python [int] values are [Z]; [len] and loop counters are [nat].
    - numpy [float64] arrays are [list R]: arithmetic on samples is real
      arithmetic, its rounding is not modelled.  An array whose samples are
      infinite or NaN is not a [list R]; the one place that produces such
      samples (a noise factor that underflows to 0.0) returns [NoFinitos].
    - The constructor's [int(frecuencia_muestreo / tasa_bits)] is Python's
      division of two integers, correctly rounded to binary64 with its
      [OverflowError], then truncated.  The demodulator's [astype(int)] is
      computed on exact rationals and truncated toward zero.
    - [10 ** (snr_db / 10)] raises [OverflowError] above the binary64 range
      and is 0.0 below it, as in Python.
    - An instance is a record; an attribute that has not been assigned yet
      is [None].  A method takes the instance and returns the updated
      instance with its result, or the exception it raises.
    - Randomness is explicit: [generar_bits] and [agregar_ruido] take the
      draws of the generator as an argument.
    - [scipy.signal.butter] is a parameter of the demodulator (its
      coefficients are designed outside this program); [scipy.signal.lfilter]
      is the difference equation scipy documents for it. *)

From Stdlib Require Import String.
From Stdlib Require Import ZArith QArith Qround Reals Lra Lia List Bool.
Import ListNotations.
Open Scope string_scope.
Open Scope list_scope.

(** ** Exceptions and results *)

(** The exceptions the methods can raise.  The messages of numpy and scipy
    are abridged; the one [calcular_ber] raises itself is verbatim. *)
Inductive exception : Type :=
| ZeroDivisionError
| OverflowError
| AttributeError (attr : string)
| IndexError
| ValueError (msg : string).

Inductive result (A : Type) : Type :=
| Ok (a : A)
| Raise (e : exception).

Arguments Ok {A} a.
Arguments Raise {A} e.

Definition bind {A B : Type} (r : result A) (k : A -> result B) : result B :=
  match r with
  | Ok a => k a
  | Raise e => Raise e
  end.

Notation "x <- r ;; k" := (bind r (fun x => k))
  (at level 61, r at next level, right associativity).
Notation "' p <- r ;; k" := (bind r (fun x => let p := x in k))
  (at level 61, p pattern, r at next level, right associativity).

(** ** Arrays and floats *)

(** A float array: its finite samples, or [n] samples none of which is
    finite (each is an infinity or NaN). *)
Inductive arreglo : Type :=
| Finitos (l : list R)
| NoFinitos (n : nat).

(** Nearest integer to [n / d], ties to even ([0 <= n], [0 < d]). *)
Definition redondeo_par (n d : Z) : Z :=
  let q := (n / d)%Z in
  let r := (n mod d)%Z in
  if (2 * r <? d)%Z then q
  else if (d <? 2 * r)%Z then (q + 1)%Z
  else if Z.even q then q else (q + 1)%Z.

(** [floor(log2(n / d))] for [0 < n] and [0 < d]. *)
Definition piso_log2 (n d : Z) : Z :=
  let e0 := (Z.log2 n - Z.log2 d)%Z in
  let alcanza :=
    if (0 <=? e0)%Z then (d * 2 ^ e0 <=? n)%Z else (d <=? n * 2 ^ (- e0))%Z in
  if alcanza then e0 else (e0 - 1)%Z.

(** A binary64 value, [mantisa * 2 ^ exponente]. *)
Record flotante : Type := mkFlotante { mantisa : Z; exponente : Z }.

(** The exponent of the last place of [n / d] in binary64: 53 significant
    bits, and never below the subnormal spacing [2 ^ -1074]. *)
Definition ulp_de (n d : Z) : Z := Z.max (piso_log2 n d - 52) (-1074).

(** [n / (d * 2 ^ u)] rounded to an integer. *)
Definition mantisa_de (n d u : Z) : Z :=
  if (0 <=? u)%Z then redondeo_par n (d * 2 ^ u)
  else redondeo_par (n * 2 ^ (- u)) d.

(** [n / d] rounded to binary64, for [0 < n] and [0 < d]. *)
Definition division_positiva (n d : Z) : flotante :=
  mkFlotante (mantisa_de n d (ulp_de n d)) (ulp_de n d).

(** The rounded quotient does not fit binary64: it reaches [2 ^ 1024]. *)
Definition desborda (x : flotante) : bool :=
  ((0 <=? exponente x) && (2 ^ 1024 <=? mantisa x * 2 ^ exponente x))%Z%bool.

(** Python's [a / b] on two integers: the quotient correctly rounded to
    binary64. *)
Definition true_divide (a b : Z) : result flotante :=
  if (b =? 0)%Z then Raise ZeroDivisionError
  else if (a =? 0)%Z then Ok (mkFlotante 0 0)
  else
    let x := division_positiva (Z.abs a) (Z.abs b) in
    if desborda x then Raise OverflowError
    else Ok (mkFlotante (Z.sgn a * Z.sgn b * mantisa x) (exponente x)).

(** [int(x)] on a float: truncation toward zero. *)
Definition int_de_flotante (x : flotante) : Z :=
  if (0 <=? exponente x)%Z then (mantisa x * 2 ^ exponente x)%Z
  else Z.quot (mantisa x) (2 ^ (- exponente x)).

(** ** The instance *)

Record SistemaTelecom : Type := mkSistema {
  tasa_bits : Z;
  fc : Z;
  fs : Z;
  duracion_bit : R;
  muestras_por_bit : Z;
  bits : option (list Z);
  senal_modulada : option (list R);
  senal_ruidosa : option arreglo;
  bits_recuperados : option (list Z)
}.

(** [astype(int)] on a float given as an exact rational: truncation toward
    zero. *)
Definition int_of_Q (q : Q) : Z := Z.quot (Qnum q) (Zpos (Qden q)).

(** [__init__]: [1 / tasa_bits] raises when [tasa_bits] is 0, and
    [frecuencia_muestreo / tasa_bits] raises when the quotient is beyond the
    float range; nothing else is checked. *)
Definition __init__ (tasa fport fmuestreo : Z) : result SistemaTelecom :=
  if (tasa =? 0)%Z then Raise ZeroDivisionError
  else
    cociente_fs <- true_divide fmuestreo tasa ;;
    Ok {| tasa_bits := tasa;
          fc := fport;
          fs := fmuestreo;
          duracion_bit := (1 / IZR tasa)%R;
          muestras_por_bit := int_de_flotante cociente_fs;
          bits := None;
          senal_modulada := None;
          senal_ruidosa := None;
          bits_recuperados := None |}.

Definition frecuencia_muestreo_defecto : Z := 44100.

Definition set_bits (s : SistemaTelecom) (v : list Z) : SistemaTelecom :=
  mkSistema (tasa_bits s) (fc s) (fs s) (duracion_bit s) (muestras_por_bit s)
            (Some v) (senal_modulada s) (senal_ruidosa s) (bits_recuperados s).

Definition set_senal_modulada (s : SistemaTelecom) (v : list R) : SistemaTelecom :=
  mkSistema (tasa_bits s) (fc s) (fs s) (duracion_bit s) (muestras_por_bit s)
            (bits s) (Some v) (senal_ruidosa s) (bits_recuperados s).

Definition set_senal_ruidosa (s : SistemaTelecom) (v : arreglo) : SistemaTelecom :=
  mkSistema (tasa_bits s) (fc s) (fs s) (duracion_bit s) (muestras_por_bit s)
            (bits s) (senal_modulada s) (Some v) (bits_recuperados s).

Definition set_bits_recuperados (s : SistemaTelecom) (v : list Z) : SistemaTelecom :=
  mkSistema (tasa_bits s) (fc s) (fs s) (duracion_bit s) (muestras_por_bit s)
            (bits s) (senal_modulada s) (senal_ruidosa s) (Some v).

(** ** Bit source *)

(** [np.random.randint(0, 2, num_bits)]: [azar k] is the k-th draw. *)
Definition generar_bits (azar : nat -> bool) (s : SistemaTelecom) (num_bits : nat)
  : SistemaTelecom * list Z :=
  let v := map (fun k => if azar k then 1%Z else 0%Z) (seq 0 num_bits) in
  (set_bits s v, v).

(** ** ASK modulator *)

(** [np.linspace(start, stop, num, endpoint=False)]: [arange(num) * step + start]
    with [step = (stop - start) / num]. *)
Definition linspace (start stop : R) (num : nat) : list R :=
  map (fun k => (INR k * ((stop - start) / INR num) + start)%R) (seq 0 num).

Definition zeros_like (t : list R) : list R := map (fun _ => 0%R) t.

(** [l[inicio:fin]] for [0 <= inicio <= fin]. *)
Definition slice (l : list R) (inicio fin : nat) : list R :=
  firstn (fin - inicio) (skipn inicio l).

(** [l[inicio:inicio+len(vals)] = vals], the slice being within [l]. *)
Definition set_slice (l : list R) (inicio : nat) (vals : list R) : list R :=
  firstn inicio l ++ vals ++ skipn (inicio + length vals) l.

(** [amplitud * np.sin(2*np.pi*self.fc*t)] on one time-stamp. *)
Definition portadora (s : SistemaTelecom) (amplitud t : R) : R :=
  (amplitud * sin (2 * PI * IZR (fc s) * t))%R.

(** One iteration of the loop over [enumerate(bits)]. *)
Definition paso_modulacion (s : SistemaTelecom) (amplitud : R) (t : list R)
  (senal : list R) (ib : nat * Z) : list R :=
  let '(i, bit) := ib in
  let inicio := Z.to_nat (Z.of_nat i * muestras_por_bit s) in
  let fin := Z.to_nat ((Z.of_nat i + 1) * muestras_por_bit s) in
  if (bit =? 1)%Z
  then set_slice senal inicio (map (portadora s amplitud) (slice t inicio fin))
  else senal.

Definition enumerate {A : Type} (l : list A) : list (nat * A) :=
  combine (seq 0 (length l)) l.

(** [modulacion_ask]: [np.linspace] refuses a negative number of samples;
    when it accepts, every slice of the loop has non-negative bounds. *)
Definition modulacion_ask (s : SistemaTelecom) (bs : list Z) (amplitud : R)
  : result (SistemaTelecom * (list R * list R)) :=
  let num := (Z.of_nat (length bs) * muestras_por_bit s)%Z in
  if (num <? 0)%Z
  then Raise (ValueError "Number of samples must be non-negative")
  else
    let t := linspace 0 (INR (length bs) * duracion_bit s) (Z.to_nat num) in
    let senal :=
      fold_left (paso_modulacion s amplitud t) (enumerate bs) (zeros_like t) in
    Ok (set_senal_modulada s senal, (senal, t)).

(** ** Noise channel *)

Definition suma (l : list R) : R := fold_right Rplus 0%R l.

(** [np.mean(x)]: the sum over the number of samples.  On an empty array
    numpy gives NaN, which no array sample inherits: the noise then has no
    sample either. *)
Definition mean (l : list R) : R := (suma l / INR (length l))%R.

(** [np.random.normal(0, escala, n)]: [loc + escala * z] on the standard
    normal draws [z 0], [z 1], ... *)
Definition normal (z : nat -> R) (loc escala : R) (n : nat) : list R :=
  map (fun k => (loc + escala * z k)%R) (seq 0 n).

(** Elementwise sum of two arrays of one length. *)
Definition suma_arreglos (x y : list R) : list R :=
  map (fun p => (fst p + snd p)%R) (combine x y).

(** The least real that rounds to an infinity in binary64, and the greatest
    that rounds to 0.0. *)
Definition umbral_desborde : R := ((2 - / 2 ^ 53) * 2 ^ 1023)%R.
Definition umbral_cero : R := (/ 2 ^ 1075)%R.

(** A float power: out of range, rounded to 0.0, or a finite non-zero
    value. *)
Inductive potencia : Type :=
| Desborda
| Cero
| Finita (v : R).

(** [10 ** x] on a float [x]: Python raises [OverflowError] when the result
    is out of range and returns 0.0 when it underflows; in between the value
    is taken as the real power. *)
Definition diez_elevado (x : R) : potencia :=
  if Rle_dec umbral_desborde (Rpower 10 x) then Desborda
  else if Rle_dec (Rpower 10 x) umbral_cero then Cero
  else Finita (Rpower 10 x).

Definition potencia_senal (senal : list R) : R :=
  mean (map (fun x => (x ^ 2)%R) senal).

(** [agregar_ruido].  With a factor of 0.0 the noise power is [P_s / 0.0],
    an infinity or NaN (numpy warns, it does not raise), and so is every
    sample of the noise and of the sum. *)
Definition agregar_ruido (z : nat -> R) (s : SistemaTelecom) (senal : list R)
  (snr_db : R) : result (SistemaTelecom * arreglo) :=
  match diez_elevado (snr_db / 10) with
  | Desborda => Raise OverflowError
  | Cero =>
      let ruidosa :=
        match senal with
        | [] => Finitos []
        | _ :: _ => NoFinitos (length senal)
        end in
      Ok (set_senal_ruidosa s ruidosa, ruidosa)
  | Finita factor =>
      let potencia_ruido := (potencia_senal senal / factor)%R in
      let ruido := normal z 0 (sqrt potencia_ruido) (length senal) in
      let ruidosa := Finitos (suma_arreglos senal ruido) in
      Ok (set_senal_ruidosa s ruidosa, ruidosa)
  end.

(** ** Envelope demodulator *)

(** Sum of [c[k] * h[k]] over the indices both lists have. *)
Definition dot (c h : list R) : R :=
  suma (map (fun p => (fst p * snd p)%R) (combine c h)).

(** The recurrence of [lfilter]: [xh] and [yh] hold the past inputs and
    outputs, latest first;
    [a0*y[n] = b0*x[n] + b1*x[n-1] + ... - a1*y[n-1] - ...]. *)
Fixpoint lfilter_rec (b a' : list R) (a0 : R) (xh yh x : list R) : list R :=
  match x with
  | [] => []
  | xn :: x' =>
      let yn := ((dot b (xn :: xh) - dot a' yh) / a0)%R in
      yn :: lfilter_rec b a' a0 (xn :: xh) (yn :: yh) x'
  end.

(** [signal.lfilter(b, a, x)] from rest (zero initial state); it refuses a
    denominator that is empty or starts with 0.  This is scipy's filter for
    a denominator of two coefficients or more, as the order-5 design of the
    demodulator has (six); a denominator of one coefficient scipy hands to
    [np.convolve], which in addition refuses an empty numerator and an empty
    input. *)
Definition lfilter (b a x : list R) : result (list R) :=
  match a with
  | [] => Raise (ValueError "a must have at least one coefficient")
  | a0 :: a' =>
      if Req_dec_T a0 0 then Raise (ValueError "a[0] must be nonzero")
      else Ok (lfilter_rec b a' a0 [] [] x)
  end.

(** [np.arange(n)]. *)
Definition arange (n : nat) : list Z := map Z.of_nat (seq 0 n).

(** [(i + 0.5) * muestras_por_bit] and its [astype(int)]. *)
Definition punto_medio (s : SistemaTelecom) (i : Z) : Q :=
  ((inject_Z i + (1 # 2)) * inject_Z (muestras_por_bit s))%Q.

Definition punto_muestreo (s : SistemaTelecom) (i : Z) : Z :=
  int_of_Q (punto_medio s i).

(** [x[k]] for an integer [k]: a negative index counts from the end. *)
Definition indexar (x : list R) (k : Z) : result R :=
  let n := Z.of_nat (length x) in
  if ((0 <=? k) && (k <? n))%Z%bool then
    match nth_error x (Z.to_nat k) with Some v => Ok v | None => Raise IndexError end
  else if ((- n <=? k) && (k <? 0))%Z%bool then
    match nth_error x (Z.to_nat (n + k)) with Some v => Ok v | None => Raise IndexError end
  else Raise IndexError.

(** [x[puntos]] for an integer array [puntos]. *)
Fixpoint indexar_todos (x : list R) (puntos : list Z) : result (list R) :=
  match puntos with
  | [] => Ok []
  | k :: ks =>
      v <- indexar x k ;;
      vs <- indexar_todos x ks ;;
      Ok (v :: vs)
  end.

(** [(m > umbral).astype(int)] on one sample. *)
Definition decidir (umbral m : R) : Z :=
  if Rgt_dec m umbral then 1%Z else 0%Z.

Section Demodulador.

(** [signal.butter(orden, wn, btype='low')]: the coefficients [(b, a)], or the
    exception it raises on a cutoff it refuses. *)
Variable butter : nat -> R -> result (list R * list R).

Definition demodulacion_ask (s : SistemaTelecom) (senal_ruidosa : list R)
  (umbral : R) : result (SistemaTelecom * list Z) :=
  let senal_rectificada := map Rabs senal_ruidosa in
  if (fs s =? 0)%Z then Raise ZeroDivisionError
  else
    ba <- butter 5 (IZR (fc s) / (IZR (fs s) / 2))%R ;;
    senal_filtrada <- lfilter (fst ba) (snd ba) senal_rectificada ;;
    match bits s with
    | None => Raise (AttributeError "bits")
    | Some bs =>
        let puntos_muestreo := map (punto_muestreo s) (arange (length bs)) in
        muestras <- indexar_todos senal_filtrada puntos_muestreo ;;
        let recuperados := map (decidir umbral) muestras in
        Ok (set_bits_recuperados s recuperados, recuperados)
    end.

End Demodulador.

(** ** BER evaluator *)

(** [a != b] on arrays: elementwise on equal lengths, an array of length 1
    is broadcast, and other lengths do not broadcast (numpy raises). *)
Definition np_not_equal (a b : list Z) : result (list bool) :=
  if (length a =? length b)%nat
  then Ok (map (fun p => negb (fst p =? snd p)%Z) (combine a b))
  else match a, b with
       | [a0], _ => Ok (map (fun y => negb (a0 =? y)%Z) b)
       | _, [b0] => Ok (map (fun x => negb (x =? b0)%Z) a)
       | _, _ => Raise (ValueError "operands could not be broadcast together")
       end.

(** [np.sum] of a boolean array: the number of [True]. *)
Definition np_sum (l : list bool) : nat := length (filter (fun x => x) l).

(** A float that is a ratio of two integers, or NaN. *)
Inductive cociente : Type :=
| Finito (q : Q)
| NaN.

(** [errores / n] on a numpy integer.  [n] is [len(self.bits)]: when it is 0
    the compared array is empty and [errores] is 0 as well, and 0/0 is NaN
    (a warning, no exception). *)
Definition dividir (errores n : nat) : cociente :=
  match n with
  | O => NaN
  | S _ => Finito (inject_Z (Z.of_nat errores) / inject_Z (Z.of_nat n))%Q
  end.

(** The message of the [ValueError] that [calcular_ber] raises itself. *)
Definition mensaje_sin_demodular : string := "Primero debe demodular la señal".

Definition calcular_ber (s : SistemaTelecom) : result cociente :=
  match bits_recuperados s with
  | None => Raise (ValueError mensaje_sin_demodular)
  | Some recuperados =>
      match bits s with
      | None => Raise (AttributeError "bits")
      | Some bs =>
          distintos <- np_not_equal bs recuperados ;;
          Ok (dividir (np_sum distintos) (length bs))
      end
  end.

(** ** Specification-side notions *)

(** The sampling index as the specification words it:
    [floor((i + 0.5) * samples_per_bit)]. *)
Definition indice_especificado (spb : Z) (i : nat) : Z :=
  Qfloor ((inject_Z (Z.of_nat i) + (1 # 2)) * inject_Z spb)%Q.

(** Number of positions at which two bit sequences differ. *)
Fixpoint posiciones_distintas (a b : list Z) : nat :=
  match a, b with
  | x :: a', y :: b' =>
      (if (x =? y)%Z then 0 else 1) + posiciones_distintas a' b'
  | _, _ => 0
  end.

(** A sample within the commanded amplitude. *)
Definition acotada (amplitud x : R) : Prop := (Rabs x <= Rabs amplitud)%R.

(** The driver's chain with the noise stage skipped: the bits are stored in
    the instance, modulated, and the waveform goes to the demodulator. *)
Definition ida_y_vuelta (butter : nat -> R -> result (list R * list R))
  (s : SistemaTelecom) (bs : list Z) (amplitud umbral : R) : result (list Z) :=
  let s1 := set_bits s bs in
  r <- modulacion_ask s1 bs amplitud ;;
  d <- demodulacion_ask butter (fst r) (fst (snd r)) umbral ;;
  Ok (snd d).

(** A sequence of method calls on one instance. *)
Inductive llamada : Type :=
| Generar (azar : nat -> bool) (num_bits : nat)
| Modular (bs : list Z) (amplitud : R)
| Ruido (z : nat -> R) (senal : list R) (snr_db : R)
| Demodular (senal : list R) (umbral : R).

(** The instance after one call; a call that raises leaves it as it was
    (every method assigns its attribute as its last step). *)
Definition ejecutar (butter : nat -> R -> result (list R * list R))
  (s : SistemaTelecom) (c : llamada) : SistemaTelecom :=
  match c with
  | Generar azar n => fst (generar_bits azar s n)
  | Modular bs amplitud =>
      match modulacion_ask s bs amplitud with Ok r => fst r | Raise _ => s end
  | Ruido z senal snr_db =>
      match agregar_ruido z s senal snr_db with Ok r => fst r | Raise _ => s end
  | Demodular senal umbral =>
      match demodulacion_ask butter s senal umbral with
      | Ok r => fst r
      | Raise _ => s
      end
  end.

Definition ejecutar_todas (butter : nat -> R -> result (list R * list R))
  (s : SistemaTelecom) (cs : list llamada) : SistemaTelecom :=
  fold_left (ejecutar butter) cs s.

(** Whether some demodulation call of the sequence returned. *)
Fixpoint ha_demodulado (butter : nat -> R -> result (list R * list R))
  (s : SistemaTelecom) (cs : list llamada) : bool :=
  match cs with
  | [] => false
  | c :: cs' =>
      let aqui :=
        match c with
        | Demodular senal umbral =>
            match demodulacion_ask butter s senal umbral with
            | Ok _ => true
            | Raise _ => false
            end
        | _ => false
        end in
      aqui || ha_demodulado butter (ejecutar butter s c) cs'
  end.

(** How a run of the main block ends: with a result or an exception, or
    with non-finite samples reaching the demodulator, which real-valued
    samples cannot follow. *)
Inductive fin_de_cadena : Type :=
| Termina (r : result (list Z * list Z * cociente))
| MuestrasNoFinitas.

(** The chain of the script's main block, the prints and the plot left
    out: construct, generate, modulate, add noise, demodulate, measure.  It
    returns the transmitted bits, the recovered bits and the BER. *)
Definition cadena (butter : nat -> R -> result (list R * list R))
  (azar : nat -> bool) (z : nat -> R) (tasa fport fmuestreo : Z)
  (num_bits : nat) (amplitud snr_db umbral : R) : fin_de_cadena :=
  match __init__ tasa fport fmuestreo with
  | Raise e => Termina (Raise e)
  | Ok sistema =>
      let g := generar_bits azar sistema num_bits in
      match modulacion_ask (fst g) (snd g) amplitud with
      | Raise e => Termina (Raise e)
      | Ok m =>
          match agregar_ruido z (fst m) (fst (snd m)) snr_db with
          | Raise e => Termina (Raise e)
          | Ok (_, NoFinitos _) => MuestrasNoFinitas
          | Ok (s3, Finitos senal_ruidosa) =>
              Termina
                (d <- demodulacion_ask butter s3 senal_ruidosa umbral ;;
                 ber <- calcular_ber (fst d) ;;
                 Ok (snd g, snd d, ber))
          end
      end
  end.

(** The main block with its own arguments: 1000 bit/s, a 5 kHz carrier, the
    default 44100 Hz, 10 bits, the default amplitude 1, 5 dB, the default
    threshold 0.5. *)
Definition principal (butter : nat -> R -> result (list R * list R))
  (azar : nat -> bool) (z : nat -> R) : fin_de_cadena :=
  cadena butter azar z 1000 5000 frecuencia_muestreo_defecto 10 1 5 (1 / 2).

(** ** Small instances used to exercise the statements *)

(** A filter that passes its input through: [b = a = [1]]. *)
Definition filtro_identidad (orden : nat) (wn : R) : result (list R * list R) :=
  Ok ([1%R], [1%R]).

(** Two samples per bit, a quarter of a carrier period per sample. *)
Definition sistema_ejemplo : SistemaTelecom :=
  mkSistema 2 1 4 (1 / IZR 2)%R 2 (Some [1%Z; 0%Z]) None None None.

(** The same configuration as the constructor leaves it. *)
Definition sistema_inicial : SistemaTelecom :=
  mkSistema 2 1 4 (1 / IZR 2)%R 2 None None None None.

(** The order-5 Butterworth low-pass design at the normalised cutoff 1/2,
    which is the cutoff [fc / (fs / 2)] of [sistema_ejemplo], in exact
    arithmetic.  Its poles are 0, +-i tan(pi/10) and +-i tan(pi/5), so the
    denominator is z (z^2 + 1 - 2/sqrt 5) (z^2 + 5 - 2 sqrt 5); its five
    zeros are at -1, and the gain is 1 at frequency 0.  In decimals:
    b = 0.0528 [1, 5, 10, 10, 5, 1], a = [1, 0, 0.6334, 0, 0.0557, 0]. *)
Definition a2_un_medio : R := (6 - 12 / sqrt 5)%R.

Definition a4_un_medio : R := (9 - 4 * sqrt 5)%R.

Definition b0_un_medio : R := ((1 + a2_un_medio + a4_un_medio) / 32)%R.

Definition butter_un_medio (orden : nat) (wn : R) : result (list R * list R) :=
  Ok ([b0_un_medio; 5 * b0_un_medio; 10 * b0_un_medio; 10 * b0_un_medio;
       5 * b0_un_medio; b0_un_medio]%R,
      [1; 0; a2_un_medio; 0; a4_un_medio; 0]%R).

(** * Properties *)

(** ** Division of integers in binary64 *)

Section DivisionFlotante.

Local Open Scope Z_scope.

Lemma redondeo_par_cotas n d : 0 <= n -> 0 < d ->
  n / d <= redondeo_par n d <= n / d + 1
  /\ (2 * (n mod d) < d -> redondeo_par n d = n / d).
Proof.
  intros Hn Hd. unfold redondeo_par.
  destruct (Z.ltb_spec (2 * (n mod d)) d); [split; [lia|reflexivity]|].
  split; [|lia].
  destruct (Z.ltb_spec d (2 * (n mod d))); [lia|].
  destruct (Z.even (n / d)); lia.
Qed.

Lemma piso_log2_cota n d : 0 < n -> 0 < d ->
  (0 <= piso_log2 n d -> d * 2 ^ piso_log2 n d <= n)
  /\ (piso_log2 n d < 0 -> d <= n * 2 ^ (- piso_log2 n d))
  /\ Z.log2 n - Z.log2 d - 1 <= piso_log2 n d <= Z.log2 n - Z.log2 d.
Proof.
  intros Hn Hd. unfold piso_log2.
  destruct (Z.log2_spec n Hn) as [Ha1 Ha2].
  destruct (Z.log2_spec d Hd) as [Hb1 Hb2].
  pose proof (Z.log2_nonneg n) as Hla. pose proof (Z.log2_nonneg d) as Hlb.
  rewrite <- Z.add_1_r in Ha2, Hb2.
  generalize dependent (Z.log2 n). generalize dependent (Z.log2 d).
  intros lb Hb1 Hb2 Hlb la Ha1 Ha2 Hla.
  destruct (Z.leb_spec 0 (la - lb)) as [He0|He0].
  - destruct (Z.leb_spec (d * 2 ^ (la - lb)) n) as [Ht|Ht].
    + split; [intros _; exact Ht|]. split; lia.
    + split; [|split; [|lia]].
      * intros He.
        assert (E : 2 ^ la = 2 ^ (lb + 1) * 2 ^ (la - lb - 1)).
        { rewrite <- Z.pow_add_r by lia. f_equal. lia. }
        assert (0 < 2 ^ (la - lb - 1)) by (apply Z.pow_pos_nonneg; lia).
        assert (d * 2 ^ (la - lb - 1) < 2 ^ (lb + 1) * 2 ^ (la - lb - 1))
          by (apply Z.mul_lt_mono_pos_r; lia).
        lia.
      * intros He. assert (la = lb) by lia. subst la.
        replace (- (lb - lb - 1)) with 1 by lia. change (2 ^ 1) with 2.
        assert (Hp : 2 ^ (lb + 1) = 2 * 2 ^ lb)
          by (rewrite Z.pow_add_r by lia; change (2 ^ 1) with 2; lia).
        lia.
  - destruct (Z.leb_spec d (n * 2 ^ (- (la - lb)))) as [Ht|Ht].
    + split; [lia|]. split; [intros _; exact Ht | lia].
    + split; [lia|]. split; [|lia]. intros _.
      replace (- (la - lb - 1)) with (lb + 1 - la) by lia.
      assert (E : 2 ^ (lb + 1) = 2 ^ la * 2 ^ (lb + 1 - la)).
      { rewrite <- Z.pow_add_r by lia. f_equal. lia. }
      assert (0 < 2 ^ (lb + 1 - la)) by (apply Z.pow_pos_nonneg; lia).
      assert (2 ^ la * 2 ^ (lb + 1 - la) <= n * 2 ^ (lb + 1 - la))
        by (apply Z.mul_le_mono_pos_r; lia).
      lia.
Qed.

Lemma redondeo_par_uno n : 0 <= n -> redondeo_par n 1 = n.
Proof.
  intros Hn. unfold redondeo_par. rewrite Z.mod_1_r, Z.div_1_r. reflexivity.
Qed.

Lemma dos_53_menor : 2 ^ 53 < 2 ^ 1024.
Proof. apply Z.pow_lt_mono_r; lia. Qed.

(** Core of the exactness argument, on abstract scale [P = 2 ^ w]. *)
Lemma cociente_redondeado n d P m : 
  0 < n < 2 ^ 53 -> 0 < d -> 2 <= P ->
  d * 2 ^ 52 <= n * P ->
  (n * P) / d <= m <= (n * P) / d + 1 ->
  (2 * ((n * P) mod d) < d -> m = (n * P) / d) ->
  m / P = n / d.
Proof.
  intros Hn Hd HP Hnorm Hm Hdown.
  assert (H53 : 2 ^ 53 = 2 * 2 ^ 52) by reflexivity.
  assert (HdP : d < 2 * P) by nia.
  pose proof (Z.div_mod n d ltac:(lia)) as E1.
  pose proof (Z.mod_pos_bound n d Hd) as B1.
  pose proof (Z.div_mod (n * P) d ltac:(lia)) as E2.
  pose proof (Z.mod_pos_bound (n * P) d Hd) as B2.
  set (k := n / d) in *. set (r := n mod d) in *.
  set (F := (n * P) / d) in *. set (rem := (n * P) mod d) in *.
  symmetry. apply Z.div_unique with (r := m - k * P). 
  - left. split.
    + assert (k * P <= F) by nia. lia.
    + assert (HF : F < (k + 1) * P) by nia.
      destruct (Z.eq_dec m F) as [->|Hne]; [lia|].
      assert (Hm1 : m = F + 1) by lia.
      assert (Hrem : d <= 2 * rem) by (destruct (Z.lt_ge_cases (2 * rem) d); [specialize (Hdown ltac:(assumption)); lia | lia]).
      destruct (Z.eq_dec F ((k + 1) * P - 1)) as [EF|NF]; [|lia].
      exfalso.
      assert (rem = d - (d - r) * P) by nia.
      assert (1 <= d - r) by lia.
      nia.
  - lia.
Qed.



(** A quotient of at least 1 stays at least 1 through rounding and
    truncation. *)
Lemma int_division_positiva_uno n d :
  0 < d <= n -> 1 <= int_de_flotante (division_positiva n d).
Proof.
  intros [Hd Hn].
  destruct (piso_log2_cota n d ltac:(lia) Hd) as (Hge & Hlt & Hr).
  assert (He : 0 <= piso_log2 n d).
  { destruct (Z.lt_ge_cases (piso_log2 n d) 0) as [Hneg|]; [|lia].
    exfalso. unfold piso_log2 in Hneg.
    pose proof (Z.log2_le_mono d n Hn).
    destruct (Z.leb_spec 0 (Z.log2 n - Z.log2 d)); [|lia].
    assert (Z.log2 n = Z.log2 d) by
      (destruct (d * 2 ^ (Z.log2 n - Z.log2 d) <=? n); lia).
    rewrite H1, Z.sub_diag in Hneg. change (2 ^ 0) with 1 in Hneg.
    rewrite Z.mul_1_r in Hneg.
    destruct (Z.leb_spec d n); lia. }
  specialize (Hge He).
  unfold int_de_flotante, division_positiva, ulp_de. cbn [mantisa exponente].
  rewrite Z.max_l by lia. unfold mantisa_de.
  set (e := piso_log2 n d) in *.
  destruct (Z.leb_spec 0 (e - 52)) as [Hu|Hu].
  - assert (HP : 0 < 2 ^ (e - 52)) by (apply Z.pow_pos_nonneg; lia).
    assert (HD : 0 < d * 2 ^ (e - 52)) by (apply Z.mul_pos_pos; lia).
    pose proof (proj1 (redondeo_par_cotas n (d * 2 ^ (e - 52)) ltac:(lia) HD)) as Hm.
    assert (1 <= n / (d * 2 ^ (e - 52))).
    { apply Z.div_le_lower_bound; [assumption|].
      assert (2 ^ (e - 52) <= 2 ^ e) by (apply Z.pow_le_mono_r; lia).
      nia. }
    nia.
  - replace (- (e - 52)) with (52 - e) by lia.
    assert (HP : 0 < 2 ^ (52 - e)) by (apply Z.pow_pos_nonneg; lia).
    pose proof (proj1 (redondeo_par_cotas (n * 2 ^ (52 - e)) d ltac:(nia) Hd)) as Hm.
    assert (2 ^ (52 - e) <= n * 2 ^ (52 - e) / d).
    { apply Z.div_le_lower_bound; [assumption|]. nia. }
    rewrite Z.quot_div_nonneg by lia.
    apply Z.div_le_lower_bound; lia.
Qed.

(** Below [2 ^ 53] the float quotient truncates to the integer quotient. *)
Lemma int_division_positiva_exacta n d :
  0 < n < 2 ^ 53 -> 0 < d < 2 ^ 53 ->
  desborda (division_positiva n d) = false
  /\ int_de_flotante (division_positiva n d) = n / d.
Proof.
  intros Hn Hd.
  destruct (piso_log2_cota n d ltac:(lia) ltac:(lia)) as (Hge & Hlt & Hr).
  assert (Hln : 0 <= Z.log2 n < 53).
  { split; [apply Z.log2_nonneg | apply Z.log2_lt_pow2; lia]. }
  assert (Hld : 0 <= Z.log2 d < 53).
  { split; [apply Z.log2_nonneg | apply Z.log2_lt_pow2; lia]. }
  assert (H53 : 2 ^ 53 = 2 * 2 ^ 52) by reflexivity.
  assert (H52 : 0 < 2 ^ 52) by reflexivity.
  unfold desborda, int_de_flotante, division_positiva, ulp_de.
  cbn [mantisa exponente].
  set (e := piso_log2 n d) in *.
  rewrite Z.max_l by lia. unfold mantisa_de.
  destruct (Z.leb_spec 0 (e - 52)) as [Hu|Hu].
  - assert (e = 52) by lia. rewrite H. change (2 ^ (52 - 52)) with 1.
    rewrite H in Hge. specialize (Hge ltac:(lia)).
    assert (d = 1) by nia. subst d.
    rewrite !Z.mul_1_r, redondeo_par_uno, Z.div_1_r by lia.
    split; [|reflexivity].
    destruct (Z.leb_spec (2 ^ 1024) n); [|reflexivity].
    pose proof dos_53_menor. lia.
  - split; [reflexivity|].
    replace (- (e - 52)) with (52 - e) by lia.
    assert (HP : 2 <= 2 ^ (52 - e)).
    { change 2 with (2 ^ 1) at 1. apply Z.pow_le_mono_r; lia. }
    assert (Hnorm : d * 2 ^ 52 <= n * 2 ^ (52 - e)).
    { destruct (Z.lt_ge_cases e 0) as [Hneg|Hpos].
      - specialize (Hlt Hneg).
        replace (52 - e) with (- e + 52) by lia.
        rewrite Z.pow_add_r by lia. nia.
      - specialize (Hge Hpos).
        assert (E : 2 ^ 52 = 2 ^ e * 2 ^ (52 - e)).
        { rewrite <- Z.pow_add_r by lia. f_equal. lia. }
        rewrite E. nia. }
    pose proof (redondeo_par_cotas (n * 2 ^ (52 - e)) d ltac:(nia) ltac:(lia))
      as [Hm Hdown].
    assert (0 <= n * 2 ^ (52 - e) / d) by (apply Z.div_pos; nia).
    rewrite Z.quot_div_nonneg by lia.
    apply (cociente_redondeado n d (2 ^ (52 - e))); try assumption; lia.
Qed.

Lemma int_de_flotante_signo (sg m u : Z) :
  sg = 1 \/ sg = -1 ->
  int_de_flotante (mkFlotante (sg * m) u) = sg * int_de_flotante (mkFlotante m u).
Proof.
  intros Hs. unfold int_de_flotante. cbn [mantisa exponente].
  destruct (Z.leb_spec 0 u); [ring|].
  assert (2 ^ (- u) <> 0) by (apply Z.pow_nonzero; lia).
  destruct Hs as [->| ->].
  - now rewrite !Z.mul_1_l.
  - replace (-1 * m) with (- m) by ring. rewrite Z.quot_opp_l by assumption. ring.
Qed.

Lemma signo_producto (a b : Z) :
  a <> 0 -> b <> 0 -> Z.sgn a * Z.sgn b = 1 \/ Z.sgn a * Z.sgn b = -1.
Proof. intros Ha Hb. destruct a, b; simpl; auto; contradiction. Qed.

(** What a division that returns has computed. *)
Lemma true_divide_devuelve (a b : Z) (x : flotante) :
  true_divide a b = Ok x ->
  b <> 0
  /\ (a = 0 -> int_de_flotante x = 0)
  /\ (a <> 0 ->
      int_de_flotante x
      = Z.sgn a * Z.sgn b
        * int_de_flotante (division_positiva (Z.abs a) (Z.abs b))).
Proof.
  unfold true_divide. intros H.
  destruct (Z.eqb_spec b 0) as [|Hb]; [discriminate|].
  split; [assumption|].
  destruct (Z.eqb_spec a 0) as [Ha|Ha].
  - injection H as <-. split; [reflexivity | contradiction].
  - destruct (desborda _); [discriminate|]. injection H as <-.
    split; [contradiction|]. intros _.
    rewrite int_de_flotante_signo by now apply signo_producto.
    reflexivity.
Qed.

(** Integers below [2 ^ 53] in absolute value: the division returns and
    truncates to the integer quotient. *)
Lemma true_divide_exacta (a b : Z) :
  b <> 0 -> Z.abs a < 2 ^ 53 -> Z.abs b < 2 ^ 53 ->
  exists x, true_divide a b = Ok x /\ int_de_flotante x = Z.quot a b.
Proof.
  intros Hb Ha53 Hb53. unfold true_divide.
  destruct (Z.eqb_spec b 0) as [|_]; [contradiction|].
  destruct (Z.eqb_spec a 0) as [->|Ha].
  - eexists. split; [reflexivity|]. now rewrite Z.quot_0_l.
  - destruct (int_division_positiva_exacta (Z.abs a) (Z.abs b)) as [Hd Hi];
      [lia | lia |].
    rewrite Hd. eexists. split; [reflexivity|].
    rewrite int_de_flotante_signo by now apply signo_producto.
    rewrite Z.quot_div by assumption. f_equal.
    rewrite <- Hi. reflexivity.
Qed.

End DivisionFlotante.

(** ** Construction *)

(** What a construction that returns has assigned. *)
Lemma init_devuelve (tasa fport fmuestreo : Z) (s : SistemaTelecom) :
  __init__ tasa fport fmuestreo = Ok s ->
  tasa <> 0%Z
  /\ tasa_bits s = tasa /\ fc s = fport /\ fs s = fmuestreo
  /\ duracion_bit s = (1 / IZR tasa)%R
  /\ bits s = None /\ bits_recuperados s = None
  /\ exists x, true_divide fmuestreo tasa = Ok x
               /\ muestras_por_bit s = int_de_flotante x.
Proof.
  unfold __init__. intros H.
  destruct (Z.eqb_spec tasa 0) as [|Ht]; [discriminate|].
  destruct (true_divide fmuestreo tasa) as [x|e]; [|discriminate].
  injection H as <-. cbn. repeat split; try assumption. now exists x.
Qed.

(** On integers below [2 ^ 53] in absolute value the constructor returns,
    with the quotient truncated toward zero. *)
Lemma init_ok (tasa fport fmuestreo : Z) :
  tasa <> 0%Z ->
  (Z.abs tasa < 2 ^ 53)%Z -> (Z.abs fmuestreo < 2 ^ 53)%Z ->
  exists s, __init__ tasa fport fmuestreo = Ok s
            /\ tasa_bits s = tasa /\ fc s = fport /\ fs s = fmuestreo
            /\ duracion_bit s = (1 / IZR tasa)%R
            /\ muestras_por_bit s = Z.quot fmuestreo tasa
            /\ bits s = None /\ bits_recuperados s = None.
Proof.
  intros Ht Ht53 Hf53.
  destruct (true_divide_exacta fmuestreo tasa Ht Hf53 Ht53) as (x & Hx & Hi).
  unfold __init__. destruct (Z.eqb_spec tasa 0) as [|_]; [contradiction|].
  rewrite Hx. eexists. split; [reflexivity|]. cbn.
  repeat split; try reflexivity. exact Hi.
Qed.


(** A sample rate of at least the bit rate leaves at least one sample per
    bit, also when the quotient is rounded. *)
Lemma init_al_menos_uno (tasa fport fmuestreo : Z) (s : SistemaTelecom) :
  (0 < tasa <= fmuestreo)%Z ->
  __init__ tasa fport fmuestreo = Ok s -> (1 <= muestras_por_bit s)%Z.
Proof.
  intros Ht H.
  destruct (init_devuelve _ _ _ _ H) as (_ & _ & _ & _ & _ & _ & _ & x & Hx & ->).
  destruct (true_divide_devuelve _ _ _ Hx) as (_ & _ & Hn).
  rewrite Hn by lia.
  pose proof (int_division_positiva_uno (Z.abs fmuestreo) (Z.abs tasa)
                ltac:(lia)).
  rewrite (Z.sgn_pos fmuestreo), (Z.sgn_pos tasa) by lia. lia.
Qed.

(** C2, as the specification states it, fails: a sample rate of 500 under a
    bit rate of 1000 is accepted, and [muestras_por_bit] is 0. *)
Lemma C2_init_trunca_a_cero :
  exists s, __init__ 1000 5000 500 = Ok s /\ muestras_por_bit s = 0%Z.
Proof. eexists; split; reflexivity. Qed.

(** C2 (amended): the constructor checks nothing but its two divisions.  A
    bit rate of 0 raises [ZeroDivisionError].  For rates below [2 ^ 53] in
    absolute value every other bit rate is accepted, with [muestras_por_bit]
    the quotient truncated toward zero: 0 when [0 <= fs < tasa_bits], at
    least 1 when [0 < tasa_bits <= fs]. *)
Theorem C2_init_sin_validacion (tasa fport fmuestreo : Z) :
  __init__ 0 fport fmuestreo = Raise ZeroDivisionError
  /\ (tasa <> 0%Z ->
      (Z.abs tasa < 2 ^ 53)%Z -> (Z.abs fmuestreo < 2 ^ 53)%Z ->
      exists s, __init__ tasa fport fmuestreo = Ok s
                /\ muestras_por_bit s = Z.quot fmuestreo tasa
                /\ ((0 <= fmuestreo < tasa)%Z -> muestras_por_bit s = 0%Z)
                /\ ((0 < tasa <= fmuestreo)%Z -> (1 <= muestras_por_bit s)%Z)).
Proof.
  split; [reflexivity|]. intros Ht Ht53 Hf53.
  destruct (init_ok tasa fport fmuestreo Ht Ht53 Hf53)
    as (s & Hs & _ & _ & _ & _ & Hm & _).
  exists s. split; [assumption|]. split; [assumption|]. rewrite Hm. split.
  - intros H. now apply Z.quot_small.
  - intros [H1 H2]. rewrite Z.quot_div_nonneg by lia.
    apply Z.div_le_lower_bound; lia.
Qed.

Lemma C2_init_sin_validacion_testigo :
  exists s, __init__ 1000 5000 44100 = Ok s
            /\ muestras_por_bit s = Z.quot 44100 1000
            /\ ((0 <= 44100 < 1000)%Z -> muestras_por_bit s = 0%Z)
            /\ ((0 < 1000 <= 44100)%Z -> (1 <= muestras_por_bit s)%Z).
Proof.
  apply (proj2 (C2_init_sin_validacion 1000 5000 44100)).
  - discriminate.
  - reflexivity.
  - reflexivity.
Defined.

(** ** Sampling instants of the demodulator *)

Lemma punto_muestreo_quot (s : SistemaTelecom) (i : Z) :
  punto_muestreo s i = Z.quot ((i * 2 + 1) * muestras_por_bit s) 2.
Proof.
  unfold punto_muestreo, punto_medio, int_of_Q. simpl. reflexivity.
Qed.

Lemma indice_especificado_div (spb : Z) (i : nat) :
  indice_especificado spb i = ((Z.of_nat i * 2 + 1) * spb / 2)%Z.
Proof.
  unfold indice_especificado, Qfloor. simpl. reflexivity.
Qed.

(** On a non-negative [muestras_por_bit] truncation is the floor. *)
Lemma punto_muestreo_especificado (s : SistemaTelecom) (i : nat) :
  (0 <= muestras_por_bit s)%Z ->
  punto_muestreo s (Z.of_nat i) = indice_especificado (muestras_por_bit s) i.
Proof.
  intros H. rewrite punto_muestreo_quot, indice_especificado_div.
  apply Z.quot_div_nonneg; nia.
Qed.

Lemma indice_especificado_cotas (spb : Z) (n i : nat) :
  (1 <= spb)%Z -> (i < n)%nat ->
  (0 <= indice_especificado spb i < Z.of_nat n * spb)%Z.
Proof.
  intros Hs Hi. rewrite indice_especificado_div. split.
  - apply Z.div_pos; nia.
  - apply Z.div_lt_upper_bound; nia.
Qed.

Lemma lfilter_rec_length (b a' : list R) (a0 : R) (x xh yh : list R) :
  length (lfilter_rec b a' a0 xh yh x) = length x.
Proof.
  revert xh yh. induction x as [|xn x IH]; intros xh yh; simpl.
  - reflexivity.
  - now rewrite IH.
Qed.

Lemma lfilter_length (b a x y : list R) :
  lfilter b a x = Ok y -> length y = length x.
Proof.
  unfold lfilter. destruct a as [|a0 a']; [discriminate|].
  destruct (Req_dec_T a0 0); [discriminate|].
  intros H. injection H as <-. apply lfilter_rec_length.
Qed.

Lemma indexar_no_negativo (x : list R) (k : Z) (v : R) :
  (0 <= k)%Z -> indexar x k = Ok v <-> nth_error x (Z.to_nat k) = Some v.
Proof.
  intros Hk. unfold indexar.
  destruct (Z.leb_spec 0 k) as [_|]; [|lia].
  destruct (Z.ltb_spec k (Z.of_nat (length x))) as [Hlt|Hge]; simpl.
  - destruct (nth_error x (Z.to_nat k)); split; intros H;
      try discriminate; inversion H; reflexivity.
  - destruct (Z.ltb_spec k 0) as [|_]; [lia|]. rewrite andb_false_r.
    assert (Hn : nth_error x (Z.to_nat k) = None) by (apply nth_error_None; lia).
    rewrite Hn. split; discriminate.
Qed.

Lemma indexar_todos_map {A : Type} (f : A -> Z) (x : list R) (l : list A)
  (vs : list R) :
  indexar_todos x (map f l) = Ok vs ->
  length vs = length l
  /\ forall i d, (i < length l)%nat ->
       exists v, nth_error vs i = Some v /\ indexar x (f (nth i l d)) = Ok v.
Proof.
  revert vs. induction l as [|a l IH]; intros vs; simpl.
  - intros H. injection H as <-. split; [reflexivity|]. intros i d Hi; inversion Hi.
  - destruct (indexar x (f a)) as [v|e] eqn:Ev; simpl; [|discriminate].
    destruct (indexar_todos x (map f l)) as [vs'|e] eqn:Evs; simpl; [|discriminate].
    intros H. injection H as <-. destruct (IH vs' eq_refl) as [Hlen Hnth].
    split; [simpl; now rewrite Hlen|].
    intros [|i] d Hi; simpl.
    + exists v. now split.
    + apply Hnth. lia.
Qed.

Lemma indexar_todos_total {A : Type} (f : A -> Z) (x : list R) (l : list A) :
  (forall a, In a l -> exists v, indexar x (f a) = Ok v) ->
  exists vs, indexar_todos x (map f l) = Ok vs.
Proof.
  induction l as [|a l IH]; intros H; simpl.
  - now exists [].
  - destruct (H a (or_introl eq_refl)) as [v Hv].
    destruct IH as [vs Hvs]; [intros a' Ha'; apply H; now right|].
    rewrite Hv, Hvs. simpl. now exists (v :: vs).
Qed.

Lemma arange_nth (n i : nat) (d : Z) :
  (i < n)%nat -> nth i (arange n) d = Z.of_nat i.
Proof.
  intros Hi. unfold arange.
  rewrite nth_indep with (d' := Z.of_nat 0) by (now rewrite length_map, length_seq).
  rewrite map_nth, seq_nth by assumption. reflexivity.
Qed.

Lemma arange_length (n : nat) : length (arange n) = n.
Proof. unfold arange. now rewrite length_map, length_seq. Qed.

Lemma arange_In (n : nat) (k : Z) :
  In k (arange n) -> exists i, (i < n)%nat /\ k = Z.of_nat i.
Proof.
  unfold arange. rewrite in_map_iff. intros (i & <- & Hi).
  apply in_seq in Hi. exists i. split; [lia|reflexivity].
Qed.

(** The demodulator once the filter has been designed and applied. *)
Lemma demodulacion_ask_filtrada (butter : nat -> R -> result (list R * list R))
  (s : SistemaTelecom) (senal : list R) (umbral : R) (bs : list Z)
  (ba : list R * list R) (filtrada : list R) :
  fs s <> 0%Z -> bits s = Some bs ->
  butter 5%nat (IZR (fc s) / (IZR (fs s) / 2))%R = Ok ba ->
  lfilter (fst ba) (snd ba) (map Rabs senal) = Ok filtrada ->
  demodulacion_ask butter s senal umbral =
    (muestras <- indexar_todos filtrada
                   (map (punto_muestreo s) (arange (length bs))) ;;
     Ok (set_bits_recuperados s (map (decidir umbral) muestras),
         map (decidir umbral) muestras)).
Proof.
  intros Hfs Hb Hbu Hlf. unfold demodulacion_ask.
  destruct (Z.eqb_spec (fs s) 0) as [E|_]; [contradiction|].
  rewrite Hbu. simpl. rewrite Hlf. simpl. now rewrite Hb.
Qed.

Lemma demodulacion_ask_devuelve (butter : nat -> R -> result (list R * list R))
  (s : SistemaTelecom) (senal : list R) (umbral : R) (bs : list Z)
  (ba : list R * list R) (filtrada : list R) :
  (0 <= muestras_por_bit s)%Z ->
  fs s <> 0%Z -> bits s = Some bs ->
  butter 5%nat (IZR (fc s) / (IZR (fs s) / 2))%R = Ok ba ->
  lfilter (fst ba) (snd ba) (map Rabs senal) = Ok filtrada ->
  (forall i, (i < length bs)%nat ->
     (indice_especificado (muestras_por_bit s) i < Z.of_nat (length filtrada))%Z) ->
  exists muestras,
    length muestras = length bs
    /\ (forall i, (i < length bs)%nat ->
          nth_error muestras i
          = nth_error filtrada
              (Z.to_nat (indice_especificado (muestras_por_bit s) i)))
    /\ demodulacion_ask butter s senal umbral =
       Ok (set_bits_recuperados s (map (decidir umbral) muestras),
           map (decidir umbral) muestras).
Proof.
  intros Hspb Hfs Hb Hbu Hlf Hin.
  rewrite (demodulacion_ask_filtrada butter s senal umbral bs ba filtrada)
    by assumption.
  destruct (indexar_todos_total (punto_muestreo s) filtrada (arange (length bs)))
    as [vs Hvs].
  - intros k Hk. apply arange_In in Hk. destruct Hk as (i & Hi & ->).
    rewrite punto_muestreo_especificado by assumption.
    specialize (Hin i Hi).
    assert (Hidx : (0 <= indice_especificado (muestras_por_bit s) i)%Z).
    { rewrite indice_especificado_div. apply Z.div_pos; nia. }
    destruct (nth_error filtrada
                (Z.to_nat (indice_especificado (muestras_por_bit s) i)))
      as [v|] eqn:Ev.
    + exists v. now apply indexar_no_negativo.
    + apply nth_error_None in Ev. lia.
  - exists vs. rewrite Hvs. simpl.
    destruct (indexar_todos_map _ _ _ _ Hvs) as [Hlen Hnth].
    rewrite arange_length in Hlen, Hnth.
    split; [assumption|]. split; [|reflexivity].
    intros i Hi. destruct (Hnth i 0%Z Hi) as (v & Hv & Hix).
    rewrite arange_nth in Hix by assumption.
    rewrite punto_muestreo_especificado in Hix by assumption.
    apply indexar_no_negativo in Hix.
    + now rewrite Hv, Hix.
    + rewrite indice_especificado_div. apply Z.div_pos; nia.
Qed.

(** C6: for every input signal and bit count, a demodulation that returns
    has read the rectified and filtered signal at index
    [floor((i + 0.5) * muestras_por_bit)] for each bit index [i], and its
    [i]-th bit is 1 when that value is strictly above the threshold and 0
    otherwise; it returns whenever those indices are within the filtered
    signal. *)
Theorem C6_muestreo_en_punto_medio
  (butter : nat -> R -> result (list R * list R))
  (s : SistemaTelecom) (senal : list R) (umbral : R) (bs : list Z)
  (ba : list R * list R) (filtrada : list R) :
  (0 <= muestras_por_bit s)%Z ->
  fs s <> 0%Z -> bits s = Some bs ->
  butter 5%nat (IZR (fc s) / (IZR (fs s) / 2))%R = Ok ba ->
  lfilter (fst ba) (snd ba) (map Rabs senal) = Ok filtrada ->
  (forall s' recuperados,
      demodulacion_ask butter s senal umbral = Ok (s', recuperados) ->
      length recuperados = length bs
      /\ forall i, (i < length bs)%nat ->
           exists v,
             nth_error filtrada
               (Z.to_nat (indice_especificado (muestras_por_bit s) i)) = Some v
             /\ ((v > umbral)%R -> nth_error recuperados i = Some 1%Z)
             /\ (~ (v > umbral)%R -> nth_error recuperados i = Some 0%Z))
  /\ ((forall i, (i < length bs)%nat ->
         (indice_especificado (muestras_por_bit s) i
          < Z.of_nat (length filtrada))%Z) ->
      exists s' recuperados,
        demodulacion_ask butter s senal umbral = Ok (s', recuperados)).
Proof.
  intros Hspb Hfs Hb Hbu Hlf.
  rewrite (demodulacion_ask_filtrada butter s senal umbral bs ba filtrada)
    by assumption.
  assert (Hidx : forall i, (0 <= indice_especificado (muestras_por_bit s) i)%Z).
  { intros i. rewrite indice_especificado_div. apply Z.div_pos; nia. }
  split.
  - intros s' rec H.
    destruct (indexar_todos filtrada (map (punto_muestreo s) (arange (length bs))))
      as [muestras|e] eqn:Em; simpl in H; [|discriminate].
    injection H as _ <-.
    destruct (indexar_todos_map _ _ _ _ Em) as [Hlen Hnth].
    rewrite arange_length in Hlen, Hnth.
    split; [now rewrite length_map|].
    intros i Hi. destruct (Hnth i 0%Z Hi) as (v & Hv & Hix).
    rewrite arange_nth in Hix by assumption.
    rewrite punto_muestreo_especificado in Hix by assumption.
    apply indexar_no_negativo in Hix; [|apply Hidx].
    exists v. split; [assumption|].
    rewrite nth_error_map, Hv. simpl. unfold decidir.
    destruct (Rgt_dec v umbral); split; intros H; try reflexivity; contradiction.
  - intros Hin.
    destruct (demodulacion_ask_devuelve butter s senal umbral bs ba filtrada
                Hspb Hfs Hb Hbu Hlf Hin) as (muestras & _ & _ & Hd).
    rewrite (demodulacion_ask_filtrada butter s senal umbral bs ba filtrada)
      in Hd by assumption.
    rewrite Hd. eauto.
Qed.

Lemma C6_muestreo_en_punto_medio_testigo :
  (forall s' recuperados,
      demodulacion_ask filtro_identidad sistema_ejemplo [0; 1; 0; 0]%R (1 / 2)
      = Ok (s', recuperados) ->
      length recuperados = 2%nat
      /\ forall i, (i < 2)%nat ->
           exists v,
             nth_error (lfilter_rec [1%R] [] 1 [] [] (map Rabs [0; 1; 0; 0]%R))
               (Z.to_nat (indice_especificado 2 i)) = Some v
             /\ ((v > 1 / 2)%R -> nth_error recuperados i = Some 1%Z)
             /\ (~ (v > 1 / 2)%R -> nth_error recuperados i = Some 0%Z))
  /\ ((forall i, (i < 2)%nat ->
         (indice_especificado 2 i
          < Z.of_nat (length (lfilter_rec [1%R] [] 1 [] []
                                (map Rabs [0; 1; 0; 0]%R))))%Z) ->
      exists s' recuperados,
        demodulacion_ask filtro_identidad sistema_ejemplo [0; 1; 0; 0]%R (1 / 2)
        = Ok (s', recuperados)).
Proof.
  apply (C6_muestreo_en_punto_medio filtro_identidad sistema_ejemplo
           [0; 1; 0; 0]%R (1 / 2)%R [1%Z; 0%Z] ([1%R], [1%R])
           (lfilter_rec [1%R] [] 1 [] [] (map Rabs [0; 1; 0; 0]%R))).
  - simpl. lia.
  - simpl. discriminate.
  - reflexivity.
  - reflexivity.
  - cbv beta iota delta [lfilter fst snd].
    destruct (Req_dec_T 1 0) as [E|_]; [exfalso; lra | reflexivity].
Defined.

(** C7: with [muestras_por_bit >= 1] and an input of
    [len(bits) * muestras_por_bit] samples, every sampling index
    [floor((i + 0.5) * muestras_por_bit)], [i < len(bits)], is a valid index
    of the signal and of its filtered version (which has the same length),
    and the demodulator returns one bit per index without an indexing
    failure. *)
Theorem C7_indices_dentro_de_la_senal
  (butter : nat -> R -> result (list R * list R))
  (s : SistemaTelecom) (senal : list R) (umbral : R) (bs : list Z) :
  (1 <= muestras_por_bit s)%Z ->
  bits s = Some bs ->
  Z.of_nat (length senal) = (Z.of_nat (length bs) * muestras_por_bit s)%Z ->
  (forall i, (i < length bs)%nat ->
     punto_muestreo s (Z.of_nat i) = indice_especificado (muestras_por_bit s) i
     /\ (0 <= indice_especificado (muestras_por_bit s) i
         < Z.of_nat (length senal))%Z)
  /\ (forall ba filtrada,
        fs s <> 0%Z ->
        butter 5%nat (IZR (fc s) / (IZR (fs s) / 2))%R = Ok ba ->
        lfilter (fst ba) (snd ba) (map Rabs senal) = Ok filtrada ->
        length filtrada = length senal
        /\ exists s' recuperados,
             demodulacion_ask butter s senal umbral = Ok (s', recuperados)
             /\ length recuperados = length bs).
Proof.
  intros Hspb Hb Hlen.
  assert (Hidx : forall i, (i < length bs)%nat ->
            (0 <= indice_especificado (muestras_por_bit s) i
             < Z.of_nat (length senal))%Z).
  { intros i Hi. rewrite Hlen. now apply indice_especificado_cotas. }
  split.
  - intros i Hi. split; [apply punto_muestreo_especificado; lia | now apply Hidx].
  - intros ba filtrada Hfs Hbu Hlf.
    assert (Hfl : length filtrada = length senal).
    { apply lfilter_length in Hlf. now rewrite length_map in Hlf. }
    split; [assumption|].
    destruct (demodulacion_ask_devuelve butter s senal umbral bs ba filtrada)
      as (muestras & Hm & _ & Hd); try assumption; try lia.
    + intros i Hi. rewrite Hfl. now apply Hidx.
    + do 2 eexists. split; [exact Hd|]. now rewrite length_map.
Qed.

Lemma C7_indices_dentro_de_la_senal_testigo :
  (forall i, (i < 2)%nat ->
     punto_muestreo sistema_ejemplo (Z.of_nat i) = indice_especificado 2 i
     /\ (0 <= indice_especificado 2 i < 4)%Z)
  /\ (forall ba filtrada,
        fs sistema_ejemplo <> 0%Z ->
        filtro_identidad 5%nat
          (IZR (fc sistema_ejemplo) / (IZR (fs sistema_ejemplo) / 2))%R = Ok ba ->
        lfilter (fst ba) (snd ba) (map Rabs [0; 1; 0; 0]%R) = Ok filtrada ->
        length filtrada = 4%nat
        /\ exists s' recuperados,
             demodulacion_ask filtro_identidad sistema_ejemplo [0; 1; 0; 0]%R (1 / 2)
             = Ok (s', recuperados)
             /\ length recuperados = 2%nat).
Proof.
  apply (C7_indices_dentro_de_la_senal filtro_identidad sistema_ejemplo
           [0; 1; 0; 0]%R (1 / 2)%R [1%Z; 0%Z]).
  - simpl. lia.
  - reflexivity.
  - reflexivity.
Defined.

(** ** Bit error rate *)

Lemma ejecutar_bits_recuperados (butter : nat -> R -> result (list R * list R))
  (s : SistemaTelecom) (c : llamada) :
  match c with
  | Demodular senal umbral =>
      match demodulacion_ask butter s senal umbral with
      | Ok _ => bits_recuperados (ejecutar butter s c) <> None
      | Raise _ => bits_recuperados (ejecutar butter s c) = bits_recuperados s
      end
  | _ => bits_recuperados (ejecutar butter s c) = bits_recuperados s
  end.
Proof.
  destruct c as [azar n|bs amplitud|z senal snr|senal umbral]; simpl.
  - reflexivity.
  - unfold modulacion_ask.
    destruct (Z.of_nat (length bs) * muestras_por_bit s <? 0)%Z; reflexivity.
  - unfold agregar_ruido. destruct (diez_elevado (snr / 10)); reflexivity.
  - destruct (demodulacion_ask butter s senal umbral) as [[s' rec]|e] eqn:E;
      [|reflexivity].
    unfold demodulacion_ask in E.
    destruct (fs s =? 0)%Z; [discriminate|].
    destruct (butter 5%nat _) as [ba|]; simpl in E; [|discriminate].
    destruct (lfilter _ _ _) as [filtrada|]; simpl in E; [|discriminate].
    destruct (bits s) as [bs|]; [|discriminate].
    destruct (indexar_todos _ _) as [muestras|]; simpl in E; [|discriminate].
    injection E as <- _. simpl. discriminate.
Qed.

(** [bits_recuperados] exists after a sequence of calls exactly when it
    existed before or one of the demodulations returned. *)
Lemma ejecutar_todas_bits_recuperados
  (butter : nat -> R -> result (list R * list R)) (cs : list llamada) :
  forall s,
    bits_recuperados (ejecutar_todas butter s cs) = None <->
    bits_recuperados s = None /\ ha_demodulado butter s cs = false.
Proof.
  induction cs as [|c cs IH]; intros s.
  - simpl. tauto.
  - change (ejecutar_todas butter s (c :: cs))
      with (ejecutar_todas butter (ejecutar butter s c) cs).
    rewrite IH. pose proof (ejecutar_bits_recuperados butter s c) as Hc.
    cbn [ha_demodulado]. rewrite orb_false_iff.
    destruct c as [azar n|bs amplitud|z senal snr|senal umbral];
      try (rewrite Hc; tauto).
    destruct (demodulacion_ask butter s senal umbral) as [r|e].
    + split; [intros [H _]; contradiction | intros (_ & H & _); discriminate].
    + rewrite Hc. tauto.
Qed.

(** C8: on an instance that was constructed and then used through any
    sequence of calls, [calcular_ber] raises its [ValueError] when no
    demodulation of the sequence has returned, and does not raise that
    error once one has. *)
Theorem C8_ber_antes_de_demodular
  (butter : nat -> R -> result (list R * list R))
  (tasa fport fmuestreo : Z) (s0 : SistemaTelecom) (cs : list llamada) :
  __init__ tasa fport fmuestreo = Ok s0 ->
  (ha_demodulado butter s0 cs = false ->
   calcular_ber (ejecutar_todas butter s0 cs)
   = Raise (ValueError mensaje_sin_demodular))
  /\ (ha_demodulado butter s0 cs = true ->
      calcular_ber (ejecutar_todas butter s0 cs)
      <> Raise (ValueError mensaje_sin_demodular)).
Proof.
  intros Hinit.
  assert (H0 : bits_recuperados s0 = None)
    by (now destruct (init_devuelve _ _ _ _ Hinit) as (_ & _ & _ & _ & _ & _ & H0 & _)).
  pose proof (ejecutar_todas_bits_recuperados butter cs s0) as Hinv.
  split; intros Hd.
  - unfold calcular_ber. now rewrite (proj2 Hinv (conj H0 Hd)).
  - unfold calcular_ber.
    destruct (bits_recuperados (ejecutar_todas butter s0 cs)) as [rec|] eqn:Er.
    + destruct (bits (ejecutar_todas butter s0 cs)) as [bs|]; [|discriminate].
      unfold np_not_equal.
      destruct (length bs =? length rec)%nat; simpl; [discriminate|].
      destruct bs as [|b0 [|b1 bs]]; destruct rec as [|r0 [|r1 rec]];
        simpl; discriminate.
    + destruct (proj1 Hinv eq_refl) as [_ Hf]. congruence.
Qed.

Lemma C8_ber_antes_de_demodular_testigo :
  (ha_demodulado filtro_identidad
     sistema_inicial
     [Generar (fun _ => true) 1; Demodular [0; 1]%R (1 / 2)%R] = false ->
   calcular_ber
     (ejecutar_todas filtro_identidad
        sistema_inicial
        [Generar (fun _ => true) 1; Demodular [0; 1]%R (1 / 2)%R])
   = Raise (ValueError mensaje_sin_demodular))
  /\ (ha_demodulado filtro_identidad
        sistema_inicial
        [Generar (fun _ => true) 1; Demodular [0; 1]%R (1 / 2)%R] = true ->
      calcular_ber
        (ejecutar_todas filtro_identidad
           sistema_inicial
           [Generar (fun _ => true) 1; Demodular [0; 1]%R (1 / 2)%R])
      <> Raise (ValueError mensaje_sin_demodular)).
Proof.
  apply (C8_ber_antes_de_demodular filtro_identidad 2 1 4). reflexivity.
Defined.

(** Both sides of the statement occur: a fresh instance has not demodulated,
    and the demodulation of the sequence above returns. *)
Example ha_demodulado_sin_llamadas (s : SistemaTelecom) :
  ha_demodulado filtro_identidad s [Generar (fun _ => true) 1] = false.
Proof. reflexivity. Qed.

Example ha_demodulado_tras_demodular :
  ha_demodulado filtro_identidad
    sistema_inicial
    [Generar (fun _ => true) 1; Demodular [0; 1]%R (1 / 2)%R] = true.
Proof.
  cbn [ha_demodulado ejecutar generar_bits fst orb seq map].
  unfold demodulacion_ask.
  cbn [fs fc bits set_bits Z.eqb filtro_identidad bind fst snd].
  cbv beta iota delta [lfilter].
  destruct (Req_dec_T 1 0) as [E|_]; [exfalso; lra|].
  reflexivity.
Qed.

Lemma np_not_equal_misma_longitud (a b : list Z) :
  length a = length b ->
  np_not_equal a b = Ok (map (fun p => negb (fst p =? snd p)%Z) (combine a b)).
Proof.
  intros H. unfold np_not_equal. now rewrite H, Nat.eqb_refl.
Qed.

Lemma np_sum_posiciones_distintas (a b : list Z) :
  np_sum (map (fun p => negb (fst p =? snd p)%Z) (combine a b))
  = posiciones_distintas a b.
Proof.
  revert b. induction a as [|x a IH]; intros [|y b]; try reflexivity.
  unfold np_sum in *. simpl. destruct (x =? y)%Z; simpl; now rewrite IH.
Qed.

Lemma posiciones_distintas_cota (a b : list Z) :
  (posiciones_distintas a b <= length a)%nat.
Proof.
  revert b. induction a as [|x a IH]; intros [|y b]; simpl; try lia.
  specialize (IH b). destruct (x =? y)%Z; lia.
Qed.

Lemma posiciones_distintas_refl (a : list Z) : posiciones_distintas a a = 0%nat.
Proof.
  induction a as [|x a IH]; simpl; [reflexivity|].
  now rewrite Z.eqb_refl, IH.
Qed.

Lemma razon_en_unidad (e n : nat) :
  (0 < n)%nat -> (e <= n)%nat ->
  (0 <= inject_Z (Z.of_nat e) / inject_Z (Z.of_nat n)
   /\ inject_Z (Z.of_nat e) / inject_Z (Z.of_nat n) <= 1)%Q.
Proof.
  intros Hn He.
  assert (Hpos : (0 < inject_Z (Z.of_nat n))%Q).
  { change 0%Q with (inject_Z 0). rewrite <- Zlt_Qlt. lia. }
  split.
  - apply Qle_shift_div_l; [assumption|]. rewrite Qmult_0_l.
    change 0%Q with (inject_Z 0). rewrite <- Zle_Qle. lia.
  - apply Qle_shift_div_r; [assumption|]. rewrite Qmult_1_l.
    rewrite <- Zle_Qle. lia.
Qed.

(** C9: on two non-empty bit sequences of one length, [calcular_ber]
    returns the number of positions where they differ over the length; the
    value lies in [0, 1], and it is 0 when the two sequences are the same. *)
Theorem C9_ber_es_fraccion_de_errores (s : SistemaTelecom)
  (originales recuperados : list Z) :
  bits s = Some originales ->
  bits_recuperados s = Some recuperados ->
  length originales = length recuperados ->
  originales <> [] ->
  exists q,
    calcular_ber s = Ok (Finito q)
    /\ q = (inject_Z (Z.of_nat (posiciones_distintas originales recuperados))
            / inject_Z (Z.of_nat (length originales)))%Q
    /\ (0 <= q)%Q /\ (q <= 1)%Q
    /\ (originales = recuperados -> (q == 0)%Q).
Proof.
  intros Hb Hr Hlen Hne. unfold calcular_ber. rewrite Hr, Hb.
  rewrite np_not_equal_misma_longitud by assumption. simpl.
  rewrite np_sum_posiciones_distintas.
  destruct originales as [|b0 bs]; [congruence|].
  remember (b0 :: bs) as orig eqn:Eo.
  assert (Hn : (0 < length orig)%nat) by (subst orig; simpl; lia).
  unfold dividir. destruct (length orig) as [|n] eqn:En; [lia|].
  eexists. split; [reflexivity|]. split; [reflexivity|].
  pose proof (posiciones_distintas_cota orig recuperados) as Hc.
  rewrite En in Hc.
  destruct (razon_en_unidad (posiciones_distintas orig recuperados) (S n))
    as [H0 H1]; [lia | assumption |].
  repeat split; try assumption.
  intros ->. rewrite posiciones_distintas_refl. reflexivity.
Qed.

Lemma C9_ber_es_fraccion_de_errores_testigo :
  exists q,
    calcular_ber (mkSistema 2 1 4 (1 / IZR 2)%R 2 (Some [1%Z; 0%Z]) None None
                    (Some [1%Z; 1%Z]))
    = Ok (Finito q)
    /\ q = (inject_Z (Z.of_nat (posiciones_distintas [1%Z; 0%Z] [1%Z; 1%Z]))
            / inject_Z (Z.of_nat (length [1%Z; 0%Z])))%Q
    /\ (0 <= q)%Q /\ (q <= 1)%Q
    /\ ([1%Z; 0%Z] = [1%Z; 1%Z] -> (q == 0)%Q).
Proof.
  apply (C9_ber_es_fraccion_de_errores
           (mkSistema 2 1 4 (1 / IZR 2)%R 2 (Some [1%Z; 0%Z]) None None
              (Some [1%Z; 1%Z]))
           [1%Z; 0%Z] [1%Z; 1%Z]).
  - reflexivity.
  - reflexivity.
  - reflexivity.
  - discriminate.
Defined.

(** ** The modulated waveform *)

Lemma linspace_length (start stop : R) (num : nat) :
  length (linspace start stop num) = num.
Proof. unfold linspace. now rewrite length_map, length_seq. Qed.


Lemma zeros_like_length (t : list R) : length (zeros_like t) = length t.
Proof. unfold zeros_like. apply length_map. Qed.

Lemma zeros_like_nth (t : list R) (k : nat) : nth k (zeros_like t) 0%R = 0%R.
Proof.
  unfold zeros_like. revert k. induction t as [|x t IH]; intros [|k]; simpl; auto.
Qed.

Lemma slice_length (l : list R) (inicio fin : nat) :
  (fin <= length l)%nat -> length (slice l inicio fin) = (fin - inicio)%nat.
Proof.
  intros H. unfold slice. rewrite length_firstn, length_skipn. lia.
Qed.

Lemma slice_nth (l : list R) (inicio fin m : nat) (d : R) :
  (m < fin - inicio)%nat ->
  nth m (slice l inicio fin) d = nth (inicio + m) l d.
Proof.
  intros H. unfold slice. rewrite nth_firstn.
  destruct (Nat.ltb_spec m (fin - inicio)) as [_|]; [|lia].
  apply nth_skipn.
Qed.

Lemma set_slice_length (l vals : list R) (inicio : nat) :
  (inicio + length vals <= length l)%nat ->
  length (set_slice l inicio vals) = length l.
Proof.
  intros H. unfold set_slice.
  rewrite !length_app, length_firstn, length_skipn. lia.
Qed.

Lemma set_slice_nth (l vals : list R) (inicio k : nat) (d : R) :
  (inicio + length vals <= length l)%nat ->
  nth k (set_slice l inicio vals) d
  = if ((inicio <=? k) && (k <? inicio + length vals))%nat
    then nth (k - inicio) vals d
    else nth k l d.
Proof.
  intros H. unfold set_slice.
  assert (Hf : length (firstn inicio l) = inicio)
    by (rewrite length_firstn; lia).
  destruct (Nat.leb_spec inicio k) as [Hle|Hlt]; simpl.
  - rewrite app_nth2 by lia. rewrite Hf.
    destruct (Nat.ltb_spec k (inicio + length vals)) as [Hin|Hout].
    + rewrite app_nth1 by lia. reflexivity.
    + rewrite app_nth2 by lia. rewrite nth_skipn. f_equal. lia.
  - rewrite app_nth1 by lia. rewrite nth_firstn.
    destruct (Nat.ltb_spec k inicio); [reflexivity | lia].
Qed.

Section Modulador.

Variable s : SistemaTelecom.
Variable amplitud : R.
Variable t : list R.

Hypothesis spb_no_negativo : (0 <= muestras_por_bit s)%Z.

Local Abbreviation spb := (Z.to_nat (muestras_por_bit s)).

Lemma paso_modulacion_length (senal : list R) (i : nat) (bit : Z) :
  length senal = length t ->
  ((i + 1) * spb <= length t)%nat ->
  length (paso_modulacion s amplitud t senal (i, bit)) = length t.
Proof.
  intros Hl Hi. unfold paso_modulacion.
  destruct (bit =? 1)%Z; [|assumption].
  replace (Z.to_nat (Z.of_nat i * muestras_por_bit s)) with (i * spb)%nat
    by nia.
  replace (Z.to_nat ((Z.of_nat i + 1) * muestras_por_bit s))
    with ((i + 1) * spb)%nat by nia.
  rewrite set_slice_length; [assumption|].
  rewrite length_map, slice_length by assumption. lia.
Qed.

Lemma paso_modulacion_nth (senal : list R) (i k : nat) (bit : Z) :
  length senal = length t ->
  ((i + 1) * spb <= length t)%nat ->
  nth k (paso_modulacion s amplitud t senal (i, bit)) 0%R
  = if ((bit =? 1)%Z && ((i * spb <=? k)%nat && (k <? (i + 1) * spb)%nat))%bool
    then portadora s amplitud (nth k t 0%R)
    else nth k senal 0%R.
Proof.
  intros Hl Hi. unfold paso_modulacion.
  destruct (bit =? 1)%Z; [|reflexivity].
  replace (Z.to_nat (Z.of_nat i * muestras_por_bit s)) with (i * spb)%nat
    by nia.
  replace (Z.to_nat ((Z.of_nat i + 1) * muestras_por_bit s))
    with ((i + 1) * spb)%nat by nia.
  assert (Hs : length (map (portadora s amplitud)
                         (slice t (i * spb) ((i + 1) * spb)))
               = ((i + 1) * spb - i * spb)%nat)
    by (rewrite length_map; now apply slice_length).
  rewrite set_slice_nth by (rewrite Hs; lia). rewrite Hs.
  replace (i * spb + ((i + 1) * spb - i * spb))%nat with ((i + 1) * spb)%nat
    by lia.
  simpl andb.
  destruct ((i * spb <=? k)%nat && (k <? (i + 1) * spb)%nat)%bool eqn:E;
    [|reflexivity].
  apply andb_true_iff in E. destruct E as [E1 E2].
  apply Nat.leb_le in E1. apply Nat.ltb_lt in E2.
  rewrite nth_indep with (d' := portadora s amplitud 0%R)
    by (rewrite Hs; lia).
  rewrite (map_nth (portadora s amplitud)).
  rewrite slice_nth by lia. f_equal. f_equal. lia.
Qed.

(** The loop over [enumerate(bits)], started at bit index [j]. *)
Lemma bucle_modulacion (resto : list Z) :
  forall (j : nat) (senal0 : list R),
    length senal0 = length t ->
    ((j + length resto) * spb <= length t)%nat ->
    let senal :=
      fold_left (paso_modulacion s amplitud t)
        (combine (seq j (length resto)) resto) senal0 in
    length senal = length t
    /\ forall k,
         (forall i bit,
             nth_error resto i = Some bit ->
             ((j + i) * spb <= k < (j + i + 1) * spb)%nat ->
             nth k senal 0%R
             = if (bit =? 1)%Z then portadora s amplitud (nth k t 0%R)
               else nth k senal0 0%R)
         /\ ((k < j * spb \/ (j + length resto) * spb <= k)%nat ->
             nth k senal 0%R = nth k senal0 0%R).
Proof.
  induction resto as [|b resto IH]; intros j senal0 Hl Hj;
    cbn [fold_left combine seq length]; cbv zeta.
  - split; [assumption|]. intros k. split; [|reflexivity].
    intros [|i] bit H; discriminate.
  - simpl in Hj.
    assert (Hj1 : ((j + 1) * spb <= length t)%nat) by nia.
    assert (Hj2 : ((S j + length resto) * spb <= length t)%nat) by nia.
    pose proof (paso_modulacion_length senal0 j b Hl Hj1) as Hl1.
    destruct (IH (S j) _ Hl1 Hj2) as [Hlen Hk]. cbv zeta in Hlen, Hk.
    split; [assumption|]. intros k. destruct (Hk k) as [Hin Hout].
    split.
    + intros [|i] bit Hb Hw; simpl in Hb.
      * injection Hb as ->. rewrite Hout by nia.
        rewrite paso_modulacion_nth by assumption.
        destruct (bit =? 1)%Z; [|reflexivity]. simpl.
        destruct (Nat.leb_spec (j * spb) k); [|nia].
        destruct (Nat.ltb_spec k ((j + 1) * spb)); [reflexivity|nia].
      * rewrite (Hin i bit Hb) by nia.
        destruct (bit =? 1)%Z; [reflexivity|].
        rewrite paso_modulacion_nth by assumption.
        destruct (Nat.ltb_spec k ((j + 1) * spb)); [nia|].
        now rewrite !andb_false_r.
    + intros Hw. rewrite Hout by nia.
      rewrite paso_modulacion_nth by assumption.
      destruct Hw as [Hw|Hw].
      * destruct (Nat.leb_spec (j * spb) k); [nia|].
        now rewrite andb_false_r.
      * destruct (Nat.ltb_spec k ((j + 1) * spb)); [nia|].
        now rewrite !andb_false_r.
Qed.

End Modulador.

(** What [modulacion_ask] returns on a non-negative [muestras_por_bit]. *)
Lemma modulacion_ask_devuelve (s : SistemaTelecom) (bs : list Z) (amplitud : R) :
  (0 <= muestras_por_bit s)%Z ->
  exists senal t,
    modulacion_ask s bs amplitud = Ok (set_senal_modulada s senal, (senal, t))
    /\ t = linspace 0 (INR (length bs) * duracion_bit s)
             (length bs * Z.to_nat (muestras_por_bit s))
    /\ length senal = length t
    /\ forall i bit k,
         nth_error bs i = Some bit ->
         (i * Z.to_nat (muestras_por_bit s) <= k
          < (i + 1) * Z.to_nat (muestras_por_bit s))%nat ->
         nth k senal 0%R
         = if (bit =? 1)%Z then portadora s amplitud (nth k t 0%R) else 0%R.
Proof.
  intros Hspb. unfold modulacion_ask.
  destruct (Z.ltb_spec (Z.of_nat (length bs) * muestras_por_bit s) 0) as [|_];
    [nia|].
  replace (Z.to_nat (Z.of_nat (length bs) * muestras_por_bit s))
    with (length bs * Z.to_nat (muestras_por_bit s))%nat by nia.
  set (t := linspace 0 (INR (length bs) * duracion_bit s)
              (length bs * Z.to_nat (muestras_por_bit s))).
  assert (Ht : length t = (length bs * Z.to_nat (muestras_por_bit s))%nat)
    by apply linspace_length.
  destruct (bucle_modulacion s amplitud t Hspb bs 0%nat (zeros_like t))
    as [Hlen Hk].
  { apply zeros_like_length. }
  { rewrite Ht. simpl. lia. }
  cbv zeta in Hlen, Hk. unfold enumerate.
  do 2 eexists. split; [reflexivity|]. split; [reflexivity|].
  split; [assumption|].
  intros i bit k Hb Hw. destruct (Hk k) as [Hin _].
  rewrite (Hin i bit Hb) by (simpl; lia).
  now rewrite zeros_like_nth.
Qed.

Lemma nth_error_bit (bs : list Z) (i : nat) :
  (i < length bs)%nat -> nth_error bs i = Some (nth i bs 0%Z).
Proof. intros H. now apply nth_error_nth'. Qed.



(** ** Amplitude bound *)

Lemma portadora_acotada (s : SistemaTelecom) (amplitud t : R) :
  acotada amplitud (portadora s amplitud t).
Proof.
  unfold acotada, portadora. rewrite Rabs_mult.
  rewrite <- (Rmult_1_r (Rabs amplitud)) at 2.
  apply Rmult_le_compat_l; [apply Rabs_pos|].
  apply Rabs_le. pose proof (SIN_bound (2 * PI * IZR (fc s) * t)). lra.
Qed.

Lemma firstn_Forall (P : R -> Prop) (n : nat) :
  forall l, Forall P l -> Forall P (firstn n l).
Proof.
  induction n as [|n IH]; intros [|x l] H; simpl; try constructor.
  - now inversion H.
  - apply IH. now inversion H.
Qed.

Lemma skipn_Forall (P : R -> Prop) (n : nat) :
  forall l, Forall P l -> Forall P (skipn n l).
Proof.
  induction n as [|n IH]; intros [|x l] H; simpl; try assumption.
  apply IH. now inversion H.
Qed.

Lemma set_slice_Forall (P : R -> Prop) (l vals : list R) (inicio : nat) :
  Forall P l -> Forall P vals -> Forall P (set_slice l inicio vals).
Proof.
  intros Hl Hv. unfold set_slice.
  apply Forall_app. split; [now apply firstn_Forall|].
  apply Forall_app. split; [assumption | now apply skipn_Forall].
Qed.

Lemma paso_modulacion_acotada (s : SistemaTelecom) (amplitud : R)
  (t senal : list R) (ib : nat * Z) :
  Forall (acotada amplitud) senal ->
  Forall (acotada amplitud) (paso_modulacion s amplitud t senal ib).
Proof.
  intros H. destruct ib as [i bit]. unfold paso_modulacion.
  destruct (bit =? 1)%Z; [|assumption].
  apply set_slice_Forall; [assumption|].
  apply Forall_map. apply Forall_forall. intros x _. apply portadora_acotada.
Qed.

Lemma bucle_modulacion_acotada (s : SistemaTelecom) (amplitud : R)
  (t : list R) (pasos : list (nat * Z)) :
  forall senal,
    Forall (acotada amplitud) senal ->
    Forall (acotada amplitud)
      (fold_left (paso_modulacion s amplitud t) pasos senal).
Proof.
  induction pasos as [|ib pasos IH]; intros senal H; simpl; [assumption|].
  apply IH. now apply paso_modulacion_acotada.
Qed.

(** C10: every sample of a waveform the modulator returns is at most
    [|amplitud|] in absolute value. *)
Theorem C10_muestras_acotadas_por_amplitud (s s' : SistemaTelecom)
  (bs : list Z) (amplitud : R) (senal t : list R) :
  modulacion_ask s bs amplitud = Ok (s', (senal, t)) ->
  forall x, In x senal -> (Rabs x <= Rabs amplitud)%R.
Proof.
  unfold modulacion_ask.
  destruct (Z.of_nat (length bs) * muestras_por_bit s <? 0)%Z; [discriminate|].
  intros H. injection H as _ <- _.
  apply Forall_forall. apply bucle_modulacion_acotada.
  unfold zeros_like. apply Forall_map. apply Forall_forall. intros x _.
  unfold acotada. rewrite Rabs_R0. apply Rabs_pos.
Qed.

Lemma C10_muestras_acotadas_por_amplitud_testigo :
  exists s' senal t,
    modulacion_ask sistema_ejemplo [1%Z; 0%Z] 1 = Ok (s', (senal, t))
    /\ Forall (fun x => (Rabs x <= Rabs 1)%R) senal.
Proof.
  do 3 eexists. split; [reflexivity|].
  apply Forall_forall.
  apply (C10_muestras_acotadas_por_amplitud sistema_ejemplo _ [1%Z; 0%Z] 1%R
           _ _ eq_refl).
Defined.

(** ** The time axis *)






(** ** The noise factor and silence *)

Lemma diez_a_la_300 : (10 ^ 300 < 2 ^ 1023)%R.
Proof.
  change 10%R with (IZR 10). change 2%R with (IZR 2). rewrite !pow_IZR.
  apply IZR_lt. vm_compute. reflexivity.
Qed.

Lemma dos_a_la_1075 : (2 ^ 1075 <= 10 ^ 400)%R.
Proof.
  change 10%R with (IZR 10). change 2%R with (IZR 2). rewrite !pow_IZR.
  apply IZR_le. vm_compute. discriminate.
Qed.

Lemma potencia_de_dos_positiva (n : nat) : (1 <= 2 ^ n)%R.
Proof. apply pow_R1_Rle. lra. Qed.

Lemma potencia_de_dos_suma (a b c : nat) :
  (a + b)%nat = c -> (2 ^ c = 2 ^ a * 2 ^ b)%R.
Proof. intros <-. apply pow_add. Qed.

Lemma umbral_desborde_cotas :
  (2 ^ 1023 <= umbral_desborde)%R /\ (umbral_desborde <= 2 ^ 1024)%R.
Proof.
  unfold umbral_desborde.
  pose proof (potencia_de_dos_positiva 53) as H53.
  pose proof (potencia_de_dos_positiva 1023) as H1023.
  assert (Hi : (0 < / 2 ^ 53 <= 1)%R).
  { split; [apply Rinv_0_lt_compat; lra|].
    assert (Hc : (/ 2 ^ 53 <= / 1)%R) by (apply Rinv_le_contravar; lra).
    now rewrite Rinv_1 in Hc. }
  change (2 ^ 1024)%R with (2 * 2 ^ 1023)%R. split; nra.
Qed.

Lemma Rpower_10_nat (n : nat) : Rpower 10 (INR n) = (10 ^ n)%R.
Proof. apply Rpower_pow. lra. Qed.

Lemma INR_300 : INR 300 = 300%R.
Proof. rewrite INR_IZR_INZ. reflexivity. Qed.

Lemma INR_400 : INR 400 = 400%R.
Proof. rewrite INR_IZR_INZ. reflexivity. Qed.

(** Between -3000 dB and 3000 dB the factor is a finite non-zero float. *)
Lemma diez_elevado_finita (snr_db : R) :
  (-3000 <= snr_db <= 3000)%R ->
  diez_elevado (snr_db / 10) = Finita (Rpower 10 (snr_db / 10))
  /\ (0 < Rpower 10 (snr_db / 10))%R.
Proof.
  intros [Hlo Hhi].
  assert (Hpos : (0 < Rpower 10 (snr_db / 10))%R)
    by (unfold Rpower; apply exp_pos).
  split; [|assumption]. unfold diez_elevado.
  pose proof diez_a_la_300 as H300.
  pose proof (proj1 umbral_desborde_cotas) as Hd.
  assert (Hup : (Rpower 10 (snr_db / 10) <= 10 ^ 300)%R).
  { rewrite <- Rpower_10_nat, INR_300. apply Rle_Rpower; lra. }
  assert (Hdown : (/ 10 ^ 300 <= Rpower 10 (snr_db / 10))%R).
  { rewrite <- Rpower_10_nat, INR_300, <- Rpower_Ropp. apply Rle_Rpower; lra. }
  destruct (Rle_dec umbral_desborde (Rpower 10 (snr_db / 10))) as [H|_];
    [exfalso; lra|].
  destruct (Rle_dec (Rpower 10 (snr_db / 10)) umbral_cero) as [H|_];
    [exfalso|reflexivity].
  unfold umbral_cero in H.
  assert (H10 : (0 < 10 ^ 300)%R) by (apply pow_lt; lra).
  assert (Hlt : (/ 2 ^ 1075 < / 10 ^ 300)%R).
  { apply Rinv_lt_contravar.
    - apply Rmult_lt_0_compat; [assumption | apply pow_lt; lra].
    - pose proof (potencia_de_dos_positiva 52).
      rewrite (potencia_de_dos_suma 52 1023 1075 eq_refl).
      pose proof (potencia_de_dos_positiva 1023). nra. }
  lra.
Qed.

Lemma diez_elevado_400 : diez_elevado (4000 / 10) = Desborda.
Proof.
  unfold diez_elevado. replace (4000 / 10)%R with (INR 400)
    by (rewrite INR_400; lra).
  rewrite Rpower_10_nat.
  destruct (Rle_dec umbral_desborde (10 ^ 400)) as [_|H]; [reflexivity|].
  exfalso. apply H.
  pose proof (proj2 umbral_desborde_cotas). pose proof dos_a_la_1075.
  pose proof (potencia_de_dos_positiva 51).
  assert ((2 ^ 1024 <= 2 ^ 1075)%R).
  { rewrite (potencia_de_dos_suma 51 1024 1075 eq_refl).
    pose proof (potencia_de_dos_positiva 1024). nra. }
  lra.
Qed.

Lemma diez_elevado_menos_400 : diez_elevado (-4000 / 10) = Cero.
Proof.
  unfold diez_elevado. replace (-4000 / 10)%R with (- INR 400)%R
    by (rewrite INR_400; lra).
  rewrite Rpower_Ropp, Rpower_10_nat.
  pose proof dos_a_la_1075 as H1075.
  assert (H2 : (0 < 2 ^ 1075)%R) by (apply pow_lt; lra).
  assert (Hle : (/ 10 ^ 400 <= / 2 ^ 1075)%R)
    by (apply Rinv_le_contravar; assumption).
  assert (Hone : (/ 2 ^ 1075 <= 1)%R).
  { assert (Hc : (/ 2 ^ 1075 <= / 1)%R).
    { apply Rinv_le_contravar; [lra | apply potencia_de_dos_positiva]. }
    now rewrite Rinv_1 in Hc. }
  pose proof (proj1 umbral_desborde_cotas).
  pose proof (potencia_de_dos_positiva 1023).
  destruct (Rle_dec umbral_desborde (/ 10 ^ 400)) as [Hd|_].
  - exfalso. assert (Hs : (2 ^ 1023 <= 1)%R) by lra.
    change (2 ^ 1023)%R with (2 * 2 ^ 1022)%R in Hs.
    pose proof (potencia_de_dos_positiva 1022). lra.
  - destruct (Rle_dec (/ 10 ^ 400) umbral_cero) as [_|Hc]; [reflexivity|].
    exfalso. apply Hc. exact Hle.
Qed.

Lemma suma_ceros (n : nat) :
  suma (map (fun x => (x ^ 2)%R) (repeat 0%R n)) = 0%R.
Proof.
  unfold suma. induction n as [|n IH]; cbn [repeat map fold_right];
    [reflexivity|].
  rewrite IH. ring.
Qed.

Lemma potencia_senal_ceros (n : nat) : potencia_senal (repeat 0%R n) = 0%R.
Proof.
  unfold potencia_senal, mean. rewrite suma_ceros. unfold Rdiv. ring.
Qed.

Lemma suma_arreglos_ceros (z : nat -> R) (n : nat) :
  forall j,
    suma_arreglos (repeat 0%R n)
      (map (fun k => (0 + 0 * z k)%R) (seq j n)) = repeat 0%R n.
Proof.
  unfold suma_arreglos. induction n as [|n IH]; intros j; simpl;
    [reflexivity|].
  rewrite IH. f_equal. ring.
Qed.

(** Noise on silence, where the factor is a finite non-zero float. *)
Lemma agregar_ruido_ceros (z : nat -> R) (s : SistemaTelecom) (n : nat)
  (snr_db : R) :
  (-3000 <= snr_db <= 3000)%R ->
  agregar_ruido z s (repeat 0%R n) snr_db
  = Ok (set_senal_ruidosa s (Finitos (repeat 0%R n)), Finitos (repeat 0%R n)).
Proof.
  intros Hr. unfold agregar_ruido.
  rewrite (proj1 (diez_elevado_finita snr_db Hr)).
  assert (E : suma_arreglos (repeat 0%R n)
                (normal z 0
                   (sqrt (potencia_senal (repeat 0%R n)
                          / Rpower 10 (snr_db / 10)))
                   (length (repeat 0%R n)))
              = repeat 0%R n).
  { rewrite potencia_senal_ceros, repeat_length.
    replace (0 / Rpower 10 (snr_db / 10))%R with 0%R by (unfold Rdiv; ring).
    rewrite sqrt_0. unfold normal. apply suma_arreglos_ceros. }
  cbv zeta. rewrite E. reflexivity.
Qed.

(** C5, as the specification states it, fails at the ends of the float
    range, where the code has no guard: at 4000 dB the factor
    [10 ** (snr_db / 10)] is out of range and the call raises
    [OverflowError]; at -4000 dB the factor is 0.0, the noise power is 0/0,
    and no sample of the output is finite. *)
Lemma C5_ruido_fuera_de_rango :
  agregar_ruido (fun _ => 1%R) sistema_ejemplo [0; 0; 0]%R 4000
  = Raise OverflowError
  /\ agregar_ruido (fun _ => 1%R) sistema_ejemplo [0; 0; 0]%R (-4000)
     = Ok (set_senal_ruidosa sistema_ejemplo (NoFinitos 3), NoFinitos 3).
Proof.
  unfold agregar_ruido.
  rewrite diez_elevado_400, diez_elevado_menos_400. split; reflexivity.
Qed.

(** C5 (amended): for every [snr_db] from -3000 dB to 3000 dB the factor
    [10 ** (snr_db / 10)] is a finite float that is not 0, and on an
    all-zero signal of any length [agregar_ruido] returns the all-zero
    signal of the same length, whatever the generator draws; on a non-empty
    signal the signal power and the noise power are both 0. *)
Theorem C5_ruido_sobre_senal_nula (z : nat -> R) (s : SistemaTelecom)
  (n : nat) (snr_db : R) :
  (-3000 <= snr_db <= 3000)%R ->
  exists s' factor,
    diez_elevado (snr_db / 10) = Finita factor
    /\ factor <> 0%R
    /\ agregar_ruido z s (repeat 0%R n) snr_db
       = Ok (s', Finitos (repeat 0%R n))
    /\ length (repeat 0%R n) = n
    /\ (n <> 0%nat ->
        potencia_senal (repeat 0%R n) = 0%R
        /\ (potencia_senal (repeat 0%R n) / factor)%R = 0%R).
Proof.
  intros Hr. destruct (diez_elevado_finita snr_db Hr) as [Hf Hpos].
  do 2 eexists. split; [exact Hf|]. split; [lra|].
  split; [now apply agregar_ruido_ceros|]. split; [apply repeat_length|].
  intros _. rewrite potencia_senal_ceros. split; [reflexivity|].
  unfold Rdiv. ring.
Qed.

Lemma C5_ruido_sobre_senal_nula_testigo :
  exists s' factor,
    diez_elevado (5 / 10) = Finita factor
    /\ factor <> 0%R
    /\ agregar_ruido (fun _ => 1%R) sistema_ejemplo (repeat 0%R 3) 5
       = Ok (s', Finitos (repeat 0%R 3))
    /\ length (repeat 0%R 3) = 3%nat
    /\ (3%nat <> 0%nat ->
        potencia_senal (repeat 0%R 3) = 0%R
        /\ (potencia_senal (repeat 0%R 3) / factor)%R = 0%R).
Proof.
  apply (C5_ruido_sobre_senal_nula (fun _ => 1%R) sistema_ejemplo 3 5%R). lra.
Defined.

(** ** Round trip without noise *)

Lemma decidir_uno (umbral v : R) : decidir umbral v = 1%Z <-> (v > umbral)%R.
Proof.
  unfold decidir. destruct (Rgt_dec v umbral); split; intros H;
    try reflexivity; try assumption; try discriminate; contradiction.
Qed.

Lemma decidir_bit (umbral v : R) :
  decidir umbral v = 0%Z \/ decidir umbral v = 1%Z.
Proof. unfold decidir. destruct (Rgt_dec v umbral); auto. Qed.

(** The chain without noise, once the waveform and its filtered envelope
    are named: one decision per bit, at the mid-bit index. *)
Lemma ida_y_vuelta_decisiones (butter : nat -> R -> result (list R * list R))
  (s s1 : SistemaTelecom) (bs : list Z) (amplitud umbral : R)
  (senal t : list R) (ba : list R * list R) (filtrada : list R) :
  (1 <= muestras_por_bit s)%Z -> fs s <> 0%Z ->
  modulacion_ask (set_bits s bs) bs amplitud = Ok (s1, (senal, t)) ->
  butter 5%nat (IZR (fc s) / (IZR (fs s) / 2))%R = Ok ba ->
  lfilter (fst ba) (snd ba) (map Rabs senal) = Ok filtrada ->
  exists muestras,
    length muestras = length bs
    /\ (forall i, (i < length bs)%nat ->
          nth_error muestras i
          = Some (nth (Z.to_nat (indice_especificado (muestras_por_bit s) i))
                    filtrada 0%R))
    /\ ida_y_vuelta butter s bs amplitud umbral
       = Ok (map (decidir umbral) muestras).
Proof.
  intros Hspb Hfs Hmod Hbu Hlf.
  destruct (modulacion_ask_devuelve (set_bits s bs) bs amplitud)
    as (senal' & t' & Hmod' & Ht & Hlen & _); [simpl; lia|].
  rewrite Hmod in Hmod'. injection Hmod' as -> <- <-.
  assert (Hls : Z.of_nat (length senal)
                = (Z.of_nat (length bs) * muestras_por_bit s)%Z).
  { rewrite Hlen, Ht, linspace_length. simpl muestras_por_bit. nia. }
  assert (Hlf' : length filtrada = length senal).
  { apply lfilter_length in Hlf. now rewrite length_map in Hlf. }
  assert (Hin : forall i, (i < length bs)%nat ->
            (0 <= indice_especificado (muestras_por_bit s) i
             < Z.of_nat (length filtrada))%Z).
  { intros i Hi. rewrite Hlf', Hls. apply indice_especificado_cotas; lia. }
  destruct (demodulacion_ask_devuelve butter
              (set_senal_modulada (set_bits s bs) senal) senal umbral bs ba
              filtrada) as (muestras & Hm & Hnth & Hd);
    try assumption; try reflexivity.
  { simpl. lia. }
  { intros i Hi. apply Hin. assumption. }
  exists muestras. split; [assumption|]. split.
  - intros i Hi. rewrite (Hnth i Hi). simpl muestras_por_bit.
    apply nth_error_nth'. specialize (Hin i Hi). lia.
  - unfold ida_y_vuelta. rewrite Hmod. simpl. rewrite Hd. reflexivity.
Qed.



Lemma ventana_de (spb n k : nat) :
  (k < n * spb)%nat ->
  exists i, (i < n)%nat /\ (i * spb <= k < (i + 1) * spb)%nat.
Proof.
  intros Hk. assert (Hs : spb <> 0%nat) by nia.
  exists (k / spb)%nat.
  pose proof (Nat.div_mod_eq k spb) as Hd.
  pose proof (Nat.mod_upper_bound k spb Hs) as Hm.
  split; nia.
Qed.

(** Every sample of the waveform, by the bit whose window it is in. *)
Lemma modulacion_ask_muestras (s : SistemaTelecom) (bs : list Z) (amplitud : R) :
  (0 <= muestras_por_bit s)%Z ->
  exists senal,
    modulacion_ask s bs amplitud
    = Ok (set_senal_modulada s senal,
          (senal,
           linspace 0 (INR (length bs) * duracion_bit s)
             (length bs * Z.to_nat (muestras_por_bit s))))
    /\ length senal = (length bs * Z.to_nat (muestras_por_bit s))%nat
    /\ forall k, (k < length senal)%nat ->
         exists i bit,
           nth_error bs i = Some bit
           /\ (i * Z.to_nat (muestras_por_bit s) <= k
               < (i + 1) * Z.to_nat (muestras_por_bit s))%nat
           /\ nth k senal 0%R
              = if (bit =? 1)%Z
                then portadora s amplitud
                       (nth k (linspace 0 (INR (length bs) * duracion_bit s)
                                 (length bs * Z.to_nat (muestras_por_bit s)))
                          0%R)
                else 0%R.
Proof.
  intros Hspb.
  destruct (modulacion_ask_devuelve s bs amplitud Hspb)
    as (senal & t & Hm & Ht & Hl & Hk).
  subst t. exists senal. split; [assumption|].
  rewrite linspace_length in Hl. split; [assumption|].
  intros k Hlt. rewrite Hl in Hlt.
  destruct (ventana_de _ _ _ Hlt) as (i & Hi & Hw).
  exists i, (nth i bs 0%Z).
  pose proof (nth_error_bit bs i Hi) as Hb.
  split; [assumption|]. split; [assumption|].
  now apply (Hk i _ k Hb).
Qed.

Lemma dot_ceros (h : list R) :
  Forall (fun v => v = 0%R) h -> forall c, dot c h = 0%R.
Proof.
  unfold dot, suma. induction 1 as [|v h Hv _ IH]; intros [|c0 c]; simpl;
    try reflexivity.
  rewrite IH, Hv. ring.
Qed.

Lemma lfilter_rec_ceros (b a' : list R) (a0 : R) (n : nat) :
  forall xh yh,
    Forall (fun v => v = 0%R) xh -> Forall (fun v => v = 0%R) yh ->
    lfilter_rec b a' a0 xh yh (repeat 0%R n) = repeat 0%R n.
Proof.
  induction n as [|n IH]; intros xh yh Hx Hy; cbn [repeat lfilter_rec];
    [reflexivity|].
  assert (E : ((dot b (0 :: xh) - dot a' yh) / a0)%R = 0%R).
  { rewrite (dot_ceros (0%R :: xh)) by (now constructor).
    rewrite (dot_ceros yh) by assumption. unfold Rdiv. ring. }
  rewrite E. f_equal. apply IH; now constructor.
Qed.

Lemma todos_iguales (v : R) :
  forall l : list R,
    (forall i, (i < length l)%nat -> nth_error l i = Some v) ->
    l = repeat v (length l).
Proof.
  induction l as [|x l IH]; intros H; [reflexivity|]. simpl. f_equal.
  - specialize (H 0%nat ltac:(simpl; lia)). now injection H.
  - apply IH. intros i Hi. apply (H (S i)). simpl. lia.
Qed.

Lemma modulacion_ask_sin_unos (s : SistemaTelecom) (bs : list Z)
  (amplitud : R) :
  (0 <= muestras_por_bit s)%Z ->
  Forall (fun b => b <> 1%Z) bs ->
  exists t,
    modulacion_ask s bs amplitud
    = Ok (set_senal_modulada s
            (repeat 0%R (length bs * Z.to_nat (muestras_por_bit s))),
          (repeat 0%R (length bs * Z.to_nat (muestras_por_bit s)), t)).
Proof.
  intros Hspb Hb.
  destruct (modulacion_ask_muestras s bs amplitud Hspb) as (senal & Hm & Hl & Hk).
  assert (E : senal = repeat 0%R (length senal)).
  { apply todos_iguales. intros k Hlt.
    destruct (Hk k Hlt) as (i & bit & Hbit & _ & Hv).
    rewrite (nth_error_nth' senal 0%R Hlt), Hv.
    rewrite Forall_forall in Hb. specialize (Hb bit (nth_error_In _ _ Hbit)).
    destruct (Z.eqb_spec bit 1); [contradiction | reflexivity]. }
  rewrite Hl in E. rewrite E in Hm. eexists. exact Hm.
Qed.

Lemma lfilter_rec_app (b a' : list R) (a0 : R) (x y : list R) :
  forall xh yh,
    exists cola,
      lfilter_rec b a' a0 xh yh (x ++ y) = lfilter_rec b a' a0 xh yh x ++ cola.
Proof.
  induction x as [|xn x IH]; intros xh yh; simpl.
  - eexists. reflexivity.
  - destruct (IH (xn :: xh)
                (((dot b (xn :: xh) - dot a' yh) / a0)%R :: yh)) as [cola Hc].
    exists cola. now rewrite Hc.
Qed.

Lemma lfilter_devuelve (b a' x : list R) (a0 : R) :
  a0 <> 0%R -> lfilter b (a0 :: a') x = Ok (lfilter_rec b a' a0 [] [] x).
Proof.
  intros H. unfold lfilter. destruct (Req_dec_T a0 0); [contradiction|reflexivity].
Qed.





Lemma raiz_de_cinco : (2 < sqrt 5 < 3)%R.
Proof.
  assert (H5 : (sqrt 5 * sqrt 5 = 5)%R) by (apply sqrt_sqrt; lra).
  pose proof (sqrt_pos 5). split; nra.
Qed.

Lemma b0_un_medio_cotas : (1 / 100 < b0_un_medio < 1)%R.
Proof.
  assert (H5 : (sqrt 5 * sqrt 5 = 5)%R) by (apply sqrt_sqrt; lra).
  pose proof raiz_de_cinco as [Hlo Hhi].
  assert (Hlo' : (22 / 10 < sqrt 5)%R) by nra.
  assert (Hhi' : (sqrt 5 < 23 / 10)%R) by nra.
  assert (Hinv : (12 / sqrt 5 = 12 * sqrt 5 / 5)%R).
  { apply (Rmult_eq_reg_r (sqrt 5)); [|lra].
    replace (12 / sqrt 5 * sqrt 5)%R with 12%R by (field; lra).
    replace (12 * sqrt 5 / 5 * sqrt 5)%R with (12 * (sqrt 5 * sqrt 5) / 5)%R
      by field.
    rewrite H5. field. }
  unfold b0_un_medio, a2_un_medio, a4_un_medio. rewrite Hinv. lra.
Qed.

Lemma a2_un_medio_cotas : (0 < a2_un_medio < 1)%R.
Proof.
  assert (H5 : (sqrt 5 * sqrt 5 = 5)%R) by (apply sqrt_sqrt; lra).
  pose proof raiz_de_cinco as [Hlo Hhi].
  assert (Hlo' : (22 / 10 < sqrt 5)%R) by nra.
  assert (Hhi' : (sqrt 5 < 23 / 10)%R) by nra.
  assert (Hinv : (12 / sqrt 5 = 12 * sqrt 5 / 5)%R).
  { apply (Rmult_eq_reg_r (sqrt 5)); [|lra].
    replace (12 / sqrt 5 * sqrt 5)%R with 12%R by (field; lra).
    replace (12 * sqrt 5 / 5 * sqrt 5)%R with (12 * (sqrt 5 * sqrt 5) / 5)%R
      by field.
    rewrite H5. field. }
  unfold a2_un_medio. rewrite Hinv. lra.
Qed.

(** The envelope of one crest, through the Butterworth design at cutoff
    1/2: the crest at the second sample, and the crest at the fourth. *)
Lemma lfilter_un_medio_cresta_2 :
  lfilter [b0_un_medio; 5 * b0_un_medio; 10 * b0_un_medio; 10 * b0_un_medio;
           5 * b0_un_medio; b0_un_medio]%R
    [1; 0; a2_un_medio; 0; a4_un_medio; 0]%R [0; 1; 0; 0]%R
  = Ok [0; b0_un_medio; 5 * b0_un_medio;
        (10 - a2_un_medio) * b0_un_medio]%R.
Proof.
  rewrite lfilter_devuelve by lra. f_equal.
  cbn [lfilter_rec]. unfold dot, suma. cbn [combine map fold_right fst snd].
  repeat (apply f_equal2; [field|]). reflexivity.
Qed.


Lemma eje_ejemplo (k : nat) :
  (INR k * ((INR 2 * (1 / 2) - 0) / INR 4) + 0 = INR k / 4)%R.
Proof. simpl (INR 2). simpl (INR 4). field. Qed.

Lemma modulacion_ejemplo_10 :
  modulacion_ask (set_bits sistema_ejemplo [1%Z; 0%Z]) [1%Z; 0%Z] 1
  = Ok (set_senal_modulada (set_bits sistema_ejemplo [1%Z; 0%Z])
          [0; 1; 0; 0]%R,
        ([0; 1; 0; 0]%R, [0 / 4; 1 / 4; 2 / 4; 3 / 4]%R)).
Proof.
  cbv -[Rabs sin PI Rmult Rplus Rminus Rdiv Rinv Ropp INR IZR].
  rewrite !eje_ejemplo. simpl INR.
  replace (2 * PI * 1 * (0 / 4))%R with 0%R by field.
  replace (2 * PI * 1 * (1 / 4))%R with (PI / 2)%R by field.
  rewrite sin_0, sin_PI2.
  replace (1 * 0)%R with 0%R by ring. replace (1 * 1)%R with 1%R by ring.
  replace (1 + 1)%R with 2%R by ring. replace (2 + 1)%R with 3%R by ring.
  reflexivity.
Qed.



(** Two samples per bit do not help either.  At 2 bit/s, a 1 Hz carrier
    and 4 samples a second the cutoff the demodulator asks for is 1/2; with
    the Butterworth design at that cutoff the crest of the 1 bit reaches the
    mid-bit sample of the 1 only as 0.0528, and the mid-bit sample of the 0
    that follows as 0.4944: no threshold recovers the message [1; 0]. *)
Lemma ida_y_vuelta_dos_muestras (umbral : R) :
  ida_y_vuelta butter_un_medio sistema_ejemplo [1%Z; 0%Z] 1 umbral
  <> Ok [1%Z; 0%Z].
Proof.
  destruct (ida_y_vuelta_decisiones butter_un_medio sistema_ejemplo _
              [1%Z; 0%Z] 1%R umbral _ _ _
              [0; b0_un_medio; 5 * b0_un_medio;
               (10 - a2_un_medio) * b0_un_medio]%R
              ltac:(simpl; lia) ltac:(simpl; discriminate)
              modulacion_ejemplo_10 eq_refl)
    as (muestras & Hlen & Hnth & Hr).
  { cbn [map fst snd]. rewrite Rabs_R0, Rabs_R1.
    exact lfilter_un_medio_cresta_2. }
  rewrite Hr. intros H. injection H as H.
  pose proof (Hnth 0%nat ltac:(simpl; lia)) as H0.
  pose proof (Hnth 1%nat ltac:(simpl; lia)) as H1.
  destruct muestras as [|m0 [|m1 [|m2 muestras]]]; try discriminate.
  cbn in H0, H1. injection H0 as ->. injection H1 as ->.
  cbn [map] in H. injection H as Huno Hcero.
  apply decidir_uno in Huno.
  assert (Hno : ~ ((10 - a2_un_medio) * b0_un_medio > umbral)%R).
  { intros Hgt. apply decidir_uno in Hgt. congruence. }
  apply Hno.
  pose proof b0_un_medio_cotas. pose proof a2_un_medio_cotas. nra.
Qed.



(** * Further properties of the methods *)

(** ** Construction *)

(** X2: for a positive bit rate and a non-negative sample rate, both below
    2^53 (so that the integers are floats and their quotient is rounded by
    less than the distance to the next whole number), [muestras_por_bit] is
    the largest whole number of bit rates that fits in the sample rate. *)
Theorem X2_muestras_por_bit_es_piso (tasa fport fmuestreo : Z)
  (s : SistemaTelecom) :
  (0 < tasa < 2 ^ 53)%Z -> (0 <= fmuestreo < 2 ^ 53)%Z ->
  __init__ tasa fport fmuestreo = Ok s ->
  (muestras_por_bit s * tasa <= fmuestreo
   < (muestras_por_bit s + 1) * tasa)%Z.
Proof.
  intros Ht Hf Hinit.
  destruct (init_ok tasa fport fmuestreo) as (s0 & Hs0 & _ & _ & _ & _ & Hm & _);
    [lia | lia | lia |].
  rewrite Hinit in Hs0. injection Hs0 as <-.
  rewrite Hm, Z.quot_div_nonneg by lia.
  pose proof (Z.mul_div_le fmuestreo tasa ltac:(lia)).
  pose proof (Z.mul_succ_div_gt fmuestreo tasa ltac:(lia)). lia.
Qed.

Lemma X2_muestras_por_bit_es_piso_testigo :
  exists s,
    __init__ 1000 5000 44100 = Ok s
    /\ (muestras_por_bit s * 1000 <= 44100 < (muestras_por_bit s + 1) * 1000)%Z.
Proof.
  eexists. split; [reflexivity|].
  apply (X2_muestras_por_bit_es_piso 1000 5000 44100 _
           ltac:(split; reflexivity)
           ltac:(split; [discriminate | reflexivity]) eq_refl).
Defined.

(** Beyond 2^53 the quotient is rounded before it is truncated: the sample
    rate 2^53 + 1 at 1 bit/s leaves 2^53 samples per bit. *)
Example muestras_por_bit_redondeado :
  exists s,
    __init__ 1 5000 (2 ^ 53 + 1) = Ok s
    /\ muestras_por_bit s = (2 ^ 53)%Z.
Proof. eexists. split; reflexivity. Qed.

(** ** Demodulator: failures, polarity, threshold *)

Lemma demodulacion_ask_inversion (butter : nat -> R -> result (list R * list R))
  (s s' : SistemaTelecom) (senal : list R) (umbral : R) (rec : list Z) :
  demodulacion_ask butter s senal umbral = Ok (s', rec) ->
  exists bs muestras,
    bits s = Some bs
    /\ length muestras = length bs
    /\ rec = map (decidir umbral) muestras
    /\ s' = set_bits_recuperados s rec.
Proof.
  unfold demodulacion_ask. intros H.
  destruct (fs s =? 0)%Z; [discriminate|].
  destruct (butter 5%nat _) as [ba|]; simpl in H; [|discriminate].
  destruct (lfilter _ _ _) as [filtrada|]; simpl in H; [|discriminate].
  destruct (bits s) as [bs|]; [|discriminate].
  destruct (indexar_todos _ _) as [muestras|] eqn:Em; simpl in H; [|discriminate].
  injection H as <- <-. exists bs, muestras.
  destruct (indexar_todos_map _ _ _ _ Em) as [Hlen _].
  rewrite arange_length in Hlen. repeat split; assumption.
Qed.

(** The threshold enters only in the last step: the samples read at the
    sampling instants do not depend on it. *)
Lemma demodulacion_ask_forma (butter : nat -> R -> result (list R * list R))
  (s : SistemaTelecom) (senal : list R) :
  (exists e, forall umbral, demodulacion_ask butter s senal umbral = Raise e)
  \/ (exists muestras,
        forall umbral,
          demodulacion_ask butter s senal umbral
          = Ok (set_bits_recuperados s (map (decidir umbral) muestras),
                map (decidir umbral) muestras)).
Proof.
  unfold demodulacion_ask.
  destruct (fs s =? 0)%Z; [left; eexists; reflexivity|].
  destruct (butter 5%nat _) as [ba|e]; simpl; [|left; eexists; reflexivity].
  destruct (lfilter _ _ _) as [filtrada|e]; simpl; [|left; eexists; reflexivity].
  destruct (bits s) as [bs|]; [|left; eexists; reflexivity].
  destruct (indexar_todos _ _) as [muestras|e]; simpl;
    [right; eexists; reflexivity | left; eexists; reflexivity].
Qed.

(** X3: the demodulator reads [self.bits], which only [generar_bits]
    assigns: on an instance that was constructed and used to modulate a
    caller's own bits, demodulation raises [AttributeError] once the filter
    has been designed and applied. *)
Theorem X3_demodular_sin_generar_bits
  (butter : nat -> R -> result (list R * list R))
  (tasa fport fmuestreo : Z) (s0 s1 : SistemaTelecom) (bs : list Z)
  (amplitud umbral : R) (senal t : list R) (ba : list R * list R)
  (filtrada : list R) :
  __init__ tasa fport fmuestreo = Ok s0 ->
  modulacion_ask s0 bs amplitud = Ok (s1, (senal, t)) ->
  fmuestreo <> 0%Z ->
  butter 5%nat (IZR fport / (IZR fmuestreo / 2))%R = Ok ba ->
  lfilter (fst ba) (snd ba) (map Rabs senal) = Ok filtrada ->
  demodulacion_ask butter s1 senal umbral = Raise (AttributeError "bits").
Proof.
  intros Hinit Hmod Hfs Hbu Hlf.
  destruct (init_devuelve _ _ _ _ Hinit) as (_ & _ & Hfc & Hfs0 & _ & Hb & _).
  unfold modulacion_ask in Hmod.
  destruct (_ <? 0)%Z; [discriminate|]. injection Hmod as <- <- _.
  unfold demodulacion_ask.
  cbn [fs fc bits set_senal_modulada]. rewrite Hfs0, Hfc, Hb.
  destruct (Z.eqb_spec fmuestreo 0) as [|_]; [contradiction|].
  rewrite Hbu. simpl. rewrite Hlf. reflexivity.
Qed.

Lemma X3_demodular_sin_generar_bits_testigo :
  exists s1 senal t,
    modulacion_ask sistema_inicial [1%Z; 0%Z] 1 = Ok (s1, (senal, t))
    /\ demodulacion_ask filtro_identidad s1 senal (1 / 2)
       = Raise (AttributeError "bits").
Proof.
  do 3 eexists. split; [reflexivity|].
  eapply (X3_demodular_sin_generar_bits filtro_identidad 2 1 4 _ _ [1%Z; 0%Z]
            1%R (1 / 2)%R _ _ ([1%R], [1%R]) _).
  - reflexivity.
  - reflexivity.
  - discriminate.
  - reflexivity.
  - cbv beta iota delta [lfilter fst snd].
    destruct (Req_dec_T 1 0) as [E|_]; [exfalso; lra | reflexivity].
Defined.

Lemma map_Rabs_opuesto (x : list R) : map Rabs (map Ropp x) = map Rabs x.
Proof. rewrite map_map. apply map_ext. intros v. apply Rabs_Ropp. Qed.

(** X4: the envelope detector rectifies first, so it cannot tell a signal
    from its negation: both give the same result, bits or exception. *)
Theorem X4_demodulacion_ignora_polaridad
  (butter : nat -> R -> result (list R * list R))
  (s : SistemaTelecom) (senal : list R) (umbral : R) :
  demodulacion_ask butter s (map Ropp senal) umbral
  = demodulacion_ask butter s senal umbral.
Proof.
  unfold demodulacion_ask. now rewrite map_Rabs_opuesto.
Qed.

Lemma decidir_monotona (u1 u2 v : R) :
  (u1 <= u2)%R -> (decidir u2 v <= decidir u1 v)%Z.
Proof.
  intros H. unfold decidir.
  destruct (Rgt_dec v u2), (Rgt_dec v u1); try lia. exfalso; lra.
Qed.

(** X5: raising the threshold never turns a recovered 0 into a 1.  If the
    demodulator returns with one threshold it returns with every other, with
    as many bits, and under a higher threshold each bit is at most what it
    was. *)
Theorem X5_umbral_mas_alto_menos_unos
  (butter : nat -> R -> result (list R * list R))
  (s s1 : SistemaTelecom) (senal : list R) (u1 u2 : R) (r1 : list Z) :
  (u1 <= u2)%R ->
  demodulacion_ask butter s senal u1 = Ok (s1, r1) ->
  exists s2 r2,
    demodulacion_ask butter s senal u2 = Ok (s2, r2)
    /\ Forall2 Z.le r2 r1.
Proof.
  intros Hu H1.
  destruct (demodulacion_ask_forma butter s senal) as [[e He]|[muestras Hm]].
  - rewrite He in H1. discriminate.
  - rewrite Hm in H1. injection H1 as _ <-.
    exists (set_bits_recuperados s (map (decidir u2) muestras)),
      (map (decidir u2) muestras).
    split; [apply Hm|]. clear Hm.
    induction muestras as [|v muestras IH]; cbn [map]; constructor.
    + now apply decidir_monotona.
    + exact IH.
Qed.

(** The demodulator on the small instance: it reads samples 1 and 3 of the
    rectified signal. *)
Lemma demodulacion_ejemplo (umbral : R) :
  demodulacion_ask filtro_identidad sistema_ejemplo [0; 1; 0; 0]%R umbral
  = Ok (set_bits_recuperados sistema_ejemplo
          (map (decidir umbral)
             [nth 1 (lfilter_rec [1%R] [] 1 [] [] (map Rabs [0; 1; 0; 0]%R)) 0%R;
              nth 3 (lfilter_rec [1%R] [] 1 [] [] (map Rabs [0; 1; 0; 0]%R)) 0%R]),
        map (decidir umbral)
          [nth 1 (lfilter_rec [1%R] [] 1 [] [] (map Rabs [0; 1; 0; 0]%R)) 0%R;
           nth 3 (lfilter_rec [1%R] [] 1 [] [] (map Rabs [0; 1; 0; 0]%R)) 0%R]).
Proof.
  unfold demodulacion_ask.
  cbn [fs fc bits sistema_ejemplo Z.eqb filtro_identidad bind fst snd].
  cbv beta iota delta [lfilter].
  destruct (Req_dec_T 1 0) as [E|_]; [exfalso; lra | reflexivity].
Qed.

Lemma X5_umbral_mas_alto_menos_unos_testigo :
  exists s1 r1 s2 r2,
    demodulacion_ask filtro_identidad sistema_ejemplo [0; 1; 0; 0]%R (1 / 2)
    = Ok (s1, r1)
    /\ demodulacion_ask filtro_identidad sistema_ejemplo [0; 1; 0; 0]%R 2
       = Ok (s2, r2)
    /\ Forall2 Z.le r2 r1.
Proof.
  pose proof (demodulacion_ejemplo (1 / 2)) as H1.
  destruct (X5_umbral_mas_alto_menos_unos filtro_identidad sistema_ejemplo _
              [0; 1; 0; 0]%R (1 / 2)%R 2%R _ ltac:(lra) H1)
    as (s2 & r2 & H2 & Hle).
  do 4 eexists. split; [exact H1|]. split; [exact H2 | exact Hle].
Defined.

(** ** A configuration without samples *)

Lemma modulacion_ask_sin_muestras (s : SistemaTelecom) (bs : list Z)
  (amplitud : R) :
  muestras_por_bit s = 0%Z ->
  modulacion_ask s bs amplitud = Ok (set_senal_modulada s [], ([], [])).
Proof.
  intros H0.
  destruct (modulacion_ask_devuelve s bs amplitud) as (senal & t & Hm & Ht & Hl & _);
    [lia|].
  rewrite H0 in Ht. change (Z.to_nat 0) with 0%nat in Ht.
  rewrite Nat.mul_0_r in Ht. unfold linspace in Ht. simpl in Ht. subst t.
  destruct senal; [|discriminate]. exact Hm.
Qed.

Lemma indexar_vacio (k : Z) : indexar [] k = Raise IndexError.
Proof.
  unfold indexar. simpl.
  destruct (Z.leb_spec 0 k), (Z.ltb_spec k 0); simpl; try reflexivity; lia.
Qed.

(** X6: a sample rate below the bit rate is accepted by the constructor
    and leaves no sample per bit (for rates below 2^53, where the rounded
    quotient stays below 1): the modulator then returns an empty waveform and
    an empty time axis, and, when the filter designer accepts the cutoff and
    returns a recursive filter, the chain without noise ends in [IndexError]
    as the demodulator indexes the empty filtered signal. *)
Theorem X6_sin_muestras_falla_al_demodular
  (butter : nat -> R -> result (list R * list R))
  (tasa fport fmuestreo : Z) (s : SistemaTelecom) (bs : list Z)
  (amplitud umbral : R) (ba : list R * list R) (a0 : R) (a' : list R) :
  (0 < fmuestreo < tasa)%Z -> (tasa < 2 ^ 53)%Z ->
  __init__ tasa fport fmuestreo = Ok s ->
  bs <> [] ->
  butter 5%nat (IZR fport / (IZR fmuestreo / 2))%R = Ok ba ->
  fst ba <> [] -> snd ba = a0 :: a' -> a0 <> 0%R -> a' <> [] ->
  muestras_por_bit s = 0%Z
  /\ modulacion_ask (set_bits s bs) bs amplitud
     = Ok (set_senal_modulada (set_bits s bs) [], ([], []))
  /\ ida_y_vuelta butter s bs amplitud umbral = Raise IndexError.
Proof.
  intros Hf Ht Hinit Hne Hbu Hb Ha Ha0 Ha'.
  destruct (init_ok tasa fport fmuestreo)
    as (s0 & Hs0 & _ & Hfc & Hfs & _ & Hm & _); [lia | lia | lia |].
  rewrite Hinit in Hs0. injection Hs0 as <-.
  assert (H0 : muestras_por_bit s = 0%Z).
  { rewrite Hm. apply Z.quot_small. lia. }
  split; [exact H0|]. split.
  - now apply modulacion_ask_sin_muestras.
  - unfold ida_y_vuelta.
    rewrite modulacion_ask_sin_muestras by exact H0.
    cbn [bind fst snd]. unfold demodulacion_ask.
    cbn [fs fc bits set_senal_modulada set_bits map].
    rewrite Hfs, Hfc.
    destruct (Z.eqb_spec fmuestreo 0) as [|_]; [lia|].
    rewrite Hbu. cbn [bind]. unfold lfilter. rewrite Ha.
    destruct (Req_dec_T a0 0) as [|_]; [contradiction|].
    cbn [bind lfilter_rec].
    destruct bs as [|b bs]; [congruence|].
    unfold arange. cbn [length seq map indexar_todos].
    rewrite indexar_vacio. reflexivity.
Qed.

(** 1000 bit/s sampled at 400 Hz, with a 100 Hz carrier: the cutoff is 1/2. *)
Lemma X6_sin_muestras_falla_al_demodular_testigo :
  exists s,
    __init__ 1000 100 400 = Ok s
    /\ muestras_por_bit s = 0%Z
    /\ modulacion_ask (set_bits s [1%Z; 0%Z]) [1%Z; 0%Z] 1
       = Ok (set_senal_modulada (set_bits s [1%Z; 0%Z]) [], ([], []))
    /\ ida_y_vuelta butter_un_medio s [1%Z; 0%Z] 1 (1 / 2) = Raise IndexError.
Proof.
  eexists. split; [reflexivity|].
  apply (X6_sin_muestras_falla_al_demodular butter_un_medio 1000 100 400 _
           [1%Z; 0%Z] 1%R (1 / 2)%R _ 1%R
           [0; a2_un_medio; 0; a4_un_medio; 0]%R
           ltac:(split; reflexivity) ltac:(reflexivity) eq_refl
           ltac:(discriminate) eq_refl ltac:(discriminate) eq_refl
           ltac:(lra) ltac:(discriminate)).
Defined.

(** ** Bit error rate along the chain *)

Lemma calcular_ber_valor (s : SistemaTelecom) (originales recuperados : list Z) :
  bits s = Some originales ->
  bits_recuperados s = Some recuperados ->
  length originales = length recuperados ->
  originales <> [] ->
  calcular_ber s
  = Ok (Finito
          (inject_Z (Z.of_nat (posiciones_distintas originales recuperados))
           / inject_Z (Z.of_nat (length originales)))%Q)
  /\ (0 <= inject_Z (Z.of_nat (posiciones_distintas originales recuperados))
          / inject_Z (Z.of_nat (length originales)))%Q
  /\ (inject_Z (Z.of_nat (posiciones_distintas originales recuperados))
      / inject_Z (Z.of_nat (length originales)) <= 1)%Q.
Proof.
  intros Hb Hr Hlen Hne. unfold calcular_ber. rewrite Hr, Hb.
  rewrite np_not_equal_misma_longitud by assumption. cbn [bind].
  rewrite np_sum_posiciones_distintas.
  assert (Hn : (0 < length originales)%nat)
    by (destruct originales; [congruence | simpl; lia]).
  split.
  - unfold dividir. destruct (length originales); [lia | reflexivity].
  - apply razon_en_unidad; [assumption | apply posiciones_distintas_cota].
Qed.

(** X10: a demodulation that returns leaves the instance ready for
    [calcular_ber]: it recovered one bit per stored bit, and the BER is then
    the fraction of differing positions, between 0 and 1; on an instance
    whose stored bit array is empty the BER is NaN. *)
Theorem X10_ber_tras_demodular (butter : nat -> R -> result (list R * list R))
  (s s' : SistemaTelecom) (senal : list R) (umbral : R) (rec : list Z) :
  demodulacion_ask butter s senal umbral = Ok (s', rec) ->
  exists bs,
    bits s = Some bs
    /\ length rec = length bs
    /\ Forall (fun b => b = 0%Z \/ b = 1%Z) rec
    /\ (bs <> [] ->
        exists q,
          calcular_ber s' = Ok (Finito q)
          /\ q = (inject_Z (Z.of_nat (posiciones_distintas bs rec))
                  / inject_Z (Z.of_nat (length bs)))%Q
          /\ (0 <= q)%Q /\ (q <= 1)%Q)
    /\ (bs = [] -> calcular_ber s' = Ok NaN).
Proof.
  intros H.
  destruct (demodulacion_ask_inversion butter s s' senal umbral rec H)
    as (bs & muestras & Hb & Hlen & Hrec & Hs').
  exists bs. split; [assumption|].
  assert (Hl : length rec = length bs) by (now rewrite Hrec, length_map).
  split; [assumption|]. split.
  { rewrite Hrec. apply Forall_map, Forall_forall. intros v _.
    apply decidir_bit. }
  assert (Hb' : bits s' = Some bs) by (now rewrite Hs').
  assert (Hr' : bits_recuperados s' = Some rec) by (now rewrite Hs').
  split.
  - intros Hne.
    destruct (calcular_ber_valor s' bs rec Hb' Hr' (eq_sym Hl) Hne)
      as (Hv & H0 & H1).
    eexists. repeat split; eassumption.
  - intros ->. destruct rec; [|discriminate].
    unfold calcular_ber. now rewrite Hr', Hb'.
Qed.

Lemma X10_ber_tras_demodular_testigo :
  exists s' rec bs,
    demodulacion_ask filtro_identidad sistema_ejemplo [0; 1; 0; 0]%R (1 / 2)
    = Ok (s', rec)
    /\ bits sistema_ejemplo = Some bs
    /\ length rec = length bs
    /\ Forall (fun b => b = 0%Z \/ b = 1%Z) rec
    /\ (bs <> [] ->
        exists q,
          calcular_ber s' = Ok (Finito q)
          /\ q = (inject_Z (Z.of_nat (posiciones_distintas bs rec))
                  / inject_Z (Z.of_nat (length bs)))%Q
          /\ (0 <= q)%Q /\ (q <= 1)%Q)
    /\ (bs = [] -> calcular_ber s' = Ok NaN).
Proof.
  pose proof (demodulacion_ejemplo (1 / 2)) as H1.
  destruct (X10_ber_tras_demodular filtro_identidad sistema_ejemplo _
              [0; 1; 0; 0]%R (1 / 2)%R _ H1) as (bs & Hbs).
  do 3 eexists. split; [exact H1 | exact Hbs].
Defined.

Lemma posiciones_distintas_cero (a b : list Z) :
  length a = length b -> posiciones_distintas a b = 0%nat -> a = b.
Proof.
  revert b. induction a as [|x a IH]; intros [|y b] Hl H; try discriminate;
    [reflexivity|].
  simpl in H, Hl. destruct (Z.eqb_spec x y) as [->|]; [|discriminate].
  f_equal. apply IH; [lia | exact H].
Qed.

Lemma razon_cero (e n : nat) :
  (0 < n)%nat ->
  (inject_Z (Z.of_nat e) / inject_Z (Z.of_nat n) == 0)%Q -> e = 0%nat.
Proof.
  intros Hn H.
  assert (Hpos : ~ (inject_Z (Z.of_nat n) == 0)%Q).
  { change 0%Q with (inject_Z 0). rewrite inject_Z_injective. lia. }
  assert (He : (inject_Z (Z.of_nat e) == 0)%Q).
  { rewrite <- (Qdiv_mult_l (inject_Z (Z.of_nat e)) (inject_Z (Z.of_nat n)))
      by assumption.
    unfold Qdiv in *. setoid_replace
      (inject_Z (Z.of_nat e) * inject_Z (Z.of_nat n) * / inject_Z (Z.of_nat n))%Q
      with (inject_Z (Z.of_nat e) * / inject_Z (Z.of_nat n)
            * inject_Z (Z.of_nat n))%Q by ring.
    rewrite H. ring. }
  change 0%Q with (inject_Z 0) in He. rewrite inject_Z_injective in He. lia.
Qed.

(** X11: on two non-empty bit sequences of one length the BER is 0 exactly
    when every bit was recovered. *)
Theorem X11_ber_cero_si_y_solo_si_iguales (s : SistemaTelecom)
  (originales recuperados : list Z) (q : Q) :
  bits s = Some originales ->
  bits_recuperados s = Some recuperados ->
  length originales = length recuperados ->
  originales <> [] ->
  calcular_ber s = Ok (Finito q) ->
  ((q == 0)%Q <-> originales = recuperados).
Proof.
  intros Hb Hr Hlen Hne Hq.
  destruct (calcular_ber_valor s originales recuperados Hb Hr Hlen Hne)
    as (Hv & _ & _).
  rewrite Hv in Hq. injection Hq as <-.
  assert (Hn : (0 < length originales)%nat)
    by (destruct originales; [congruence | simpl; lia]).
  split.
  - intros H0. apply posiciones_distintas_cero; [assumption|].
    now apply (razon_cero _ (length originales)).
  - intros <-. rewrite posiciones_distintas_refl. reflexivity.
Qed.

Lemma X11_ber_cero_si_y_solo_si_iguales_testigo :
  ((inject_Z (Z.of_nat (posiciones_distintas [1%Z; 0%Z] [1%Z; 1%Z]))
    / inject_Z (Z.of_nat (length [1%Z; 0%Z])) == 0)%Q
   <-> [1%Z; 0%Z] = [1%Z; 1%Z]).
Proof.
  apply (X11_ber_cero_si_y_solo_si_iguales
           (mkSistema 2 1 4 (1 / IZR 2)%R 2 (Some [1%Z; 0%Z]) None None
              (Some [1%Z; 1%Z]))
           [1%Z; 0%Z] [1%Z; 1%Z]).
  - reflexivity.
  - reflexivity.
  - reflexivity.
  - discriminate.
  - reflexivity.
Defined.

(** X12: [generar_bits] does not discard the recovered bits of an earlier
    run.  After a demodulation has returned, drawing a fresh sequence of the
    same length makes [calcular_ber] succeed and report the fraction of
    positions where the fresh bits differ from the stale recovered ones. *)
Theorem X12_ber_contra_bits_anteriores
  (butter : nat -> R -> result (list R * list R)) (azar : nat -> bool)
  (s s1 : SistemaTelecom) (senal : list R) (umbral : R) (rec : list Z) :
  demodulacion_ask butter s senal umbral = Ok (s1, rec) ->
  rec <> [] ->
  calcular_ber (fst (generar_bits azar s1 (length rec)))
  = Ok (Finito
          (inject_Z
             (Z.of_nat
                (posiciones_distintas
                   (snd (generar_bits azar s1 (length rec))) rec))
           / inject_Z (Z.of_nat (length rec)))%Q).
Proof.
  intros H Hne.
  destruct (demodulacion_ask_inversion butter s s1 senal umbral rec H)
    as (bs & muestras & _ & _ & _ & Hs1).
  set (g := generar_bits azar s1 (length rec)).
  assert (Hlen : length (snd g) = length rec)
    by (unfold g, generar_bits; cbn [snd]; now rewrite length_map, length_seq).
  assert (Hb : bits (fst g) = Some (snd g)) by reflexivity.
  assert (Hr : bits_recuperados (fst g) = Some rec)
    by (unfold g, generar_bits; cbn [fst]; now rewrite Hs1).
  assert (Hg : snd g <> [])
    by (intros E; rewrite E in Hlen; destruct rec; [congruence|discriminate]).
  destruct (calcular_ber_valor (fst g) (snd g) rec Hb Hr Hlen Hg) as (Hv & _).
  rewrite Hv, Hlen. reflexivity.
Qed.

Lemma X12_ber_contra_bits_anteriores_testigo :
  exists s1 rec,
    demodulacion_ask filtro_identidad sistema_ejemplo [0; 1; 0; 0]%R (1 / 2)
    = Ok (s1, rec)
    /\ calcular_ber (fst (generar_bits (fun _ => true) s1 (length rec)))
       = Ok (Finito
               (inject_Z
                  (Z.of_nat
                     (posiciones_distintas
                        (snd (generar_bits (fun _ => true) s1 (length rec)))
                        rec))
                / inject_Z (Z.of_nat (length rec)))%Q).
Proof.
  pose proof (demodulacion_ejemplo (1 / 2)) as H1.
  do 2 eexists. split; [exact H1|].
  apply (X12_ber_contra_bits_anteriores filtro_identidad (fun _ => true)
           sistema_ejemplo _ [0; 1; 0; 0]%R (1 / 2)%R _ H1).
  discriminate.
Defined.

(** The attributes come in order: recovered bits exist only on an instance
    that has stored bits. *)
Lemma ejecutar_todas_bits (butter : nat -> R -> result (list R * list R))
  (cs : list llamada) :
  forall s,
    (bits_recuperados s <> None -> bits s <> None) ->
    bits_recuperados (ejecutar_todas butter s cs) <> None ->
    bits (ejecutar_todas butter s cs) <> None.
Proof.
  induction cs as [|c cs IH]; intros s Hinv; [exact Hinv|].
  change (ejecutar_todas butter s (c :: cs))
    with (ejecutar_todas butter (ejecutar butter s c) cs).
  apply IH.
  destruct c as [azar n|bs amplitud|z senal snr|senal umbral]; simpl.
  - discriminate.
  - unfold modulacion_ask. destruct (_ <? 0)%Z; exact Hinv.
  - destruct (agregar_ruido z s senal snr) as [[s' r]|e] eqn:E; [|exact Hinv].
    unfold agregar_ruido in E.
    destruct (diez_elevado (snr / 10)); [discriminate | |];
      injection E as <- _; exact Hinv.
  - destruct (demodulacion_ask butter s senal umbral) as [[s' rec]|e] eqn:E;
      [|exact Hinv].
    destruct (demodulacion_ask_inversion butter s s' senal umbral rec E)
      as (bs & muestras & Hb & _ & _ & Hs').
    intros _. cbn [fst]. rewrite Hs'. simpl. congruence.
Qed.

(** X13: on an instance that was constructed and then used through any
    sequence of calls, [calcular_ber] never fails for a missing [bits]
    attribute. *)
Theorem X13_ber_nunca_sin_bits (butter : nat -> R -> result (list R * list R))
  (tasa fport fmuestreo : Z) (s0 : SistemaTelecom) (cs : list llamada)
  (attr : string) :
  __init__ tasa fport fmuestreo = Ok s0 ->
  calcular_ber (ejecutar_todas butter s0 cs) <> Raise (AttributeError attr).
Proof.
  intros Hinit.
  assert (H0 : bits_recuperados s0 = None)
    by (now destruct (init_devuelve _ _ _ _ Hinit) as (_ & _ & _ & _ & _ & _ & H & _)).
  pose proof (ejecutar_todas_bits butter cs s0) as Hinv.
  unfold calcular_ber.
  destruct (bits_recuperados (ejecutar_todas butter s0 cs)) as [rec|] eqn:Er;
    [|discriminate].
  destruct (bits (ejecutar_todas butter s0 cs)) as [bs|] eqn:Eb.
  - unfold np_not_equal.
    destruct (length bs =? length rec)%nat; simpl; [discriminate|].
    destruct bs as [|b0 [|b1 bs]]; destruct rec as [|r0 [|r1 rec]];
      simpl; discriminate.
  - exfalso. apply Hinv; [rewrite H0; congruence | discriminate | reflexivity].
Qed.

Lemma X13_ber_nunca_sin_bits_testigo :
  calcular_ber
    (ejecutar_todas filtro_identidad
       sistema_inicial
       [Generar (fun _ => true) 2; Modular [1%Z; 0%Z] 1%R])
  = Raise (ValueError mensaje_sin_demodular)
  /\ calcular_ber
       (ejecutar_todas filtro_identidad
          sistema_inicial
          [Generar (fun _ => true) 2; Modular [1%Z; 0%Z] 1%R])
     <> Raise (AttributeError "bits").
Proof.
  split; [reflexivity|].
  apply (X13_ber_nunca_sin_bits filtro_identidad 2 1 4). reflexivity.
Defined.

(** ** Shape of the modulated waveform *)

(** X14: the waveform is linear in the amplitude.  Modulating with
    amplitude [a] gives the same time axis as modulating with amplitude 1,
    the waveform has as many samples as the time axis, and each sample is
    [a] times the unit-amplitude sample. *)
Theorem X14_forma_de_onda_lineal_en_amplitud (s : SistemaTelecom)
  (bs : list Z) (amplitud : R) :
  (0 <= muestras_por_bit s)%Z ->
  exists s1 s2 unidad t,
    modulacion_ask s bs 1 = Ok (s1, (unidad, t))
    /\ modulacion_ask s bs amplitud
       = Ok (s2, (map (Rmult amplitud) unidad, t))
    /\ length unidad = length t
    /\ Z.of_nat (length t) = (Z.of_nat (length bs) * muestras_por_bit s)%Z.
Proof.
  intros Hspb.
  destruct (modulacion_ask_muestras s bs 1 Hspb) as (u & Hu & Hlu & Hku).
  destruct (modulacion_ask_muestras s bs amplitud Hspb) as (w & Hw & Hlw & Hkw).
  assert (E : w = map (Rmult amplitud) u).
  { apply nth_ext with (d := 0%R) (d' := (amplitud * 0)%R).
    - now rewrite length_map, Hlw, Hlu.
    - intros k Hk. rewrite (map_nth (Rmult amplitud)).
      destruct (Hkw k Hk) as (i & bit & Hb & Hwin & Hv).
      destruct (Hku k ltac:(lia)) as (i' & bit' & Hb' & Hwin' & Hv').
      assert (i' = i) by nia. subst i'.
      rewrite Hb in Hb'. injection Hb' as <-.
      rewrite Hv, Hv'. destruct (bit =? 1)%Z; [|ring].
      unfold portadora. ring. }
  subst w. do 4 eexists. split; [exact Hu|]. split; [exact Hw|].
  rewrite linspace_length. split; [assumption | nia].
Qed.

Lemma X14_forma_de_onda_lineal_en_amplitud_testigo :
  exists s1 s2 unidad t,
    modulacion_ask sistema_ejemplo [1%Z; 0%Z] 1 = Ok (s1, (unidad, t))
    /\ modulacion_ask sistema_ejemplo [1%Z; 0%Z] 3
       = Ok (s2, (map (Rmult 3) unidad, t))
    /\ length unidad = length t
    /\ Z.of_nat (length t)
       = (Z.of_nat (length [1%Z; 0%Z]) * muestras_por_bit sistema_ejemplo)%Z.
Proof.
  apply (X14_forma_de_onda_lineal_en_amplitud sistema_ejemplo [1%Z; 0%Z] 3%R).
  simpl. lia.
Defined.

(** ** Silence, and the whole chain *)

Lemma demodulacion_ask_silencio (butter : nat -> R -> result (list R * list R))
  (s : SistemaTelecom) (bs : list Z) (umbral : R) (ba : list R * list R)
  (a0 : R) (a' : list R) :
  (1 <= muestras_por_bit s)%Z -> fs s <> 0%Z -> bits s = Some bs ->
  butter 5%nat (IZR (fc s) / (IZR (fs s) / 2))%R = Ok ba ->
  snd ba = a0 :: a' -> a0 <> 0%R ->
  exists s' rec,
    demodulacion_ask butter s
      (repeat 0%R (length bs * Z.to_nat (muestras_por_bit s))) umbral
    = Ok (s', rec)
    /\ ((0 <= umbral)%R -> rec = repeat 0%Z (length bs))
    /\ ((umbral < 0)%R -> rec = repeat 1%Z (length bs)).
Proof.
  intros Hspb Hfs Hb Hbu Ha Ha0.
  set (m := (length bs * Z.to_nat (muestras_por_bit s))%nat).
  assert (Hlf : lfilter (fst ba) (snd ba) (map Rabs (repeat 0%R m))
                = Ok (repeat 0%R m)).
  { rewrite Ha, lfilter_devuelve by assumption.
    rewrite map_repeat, Rabs_R0. f_equal.
    apply lfilter_rec_ceros; constructor. }
  assert (Hin : forall i, (i < length bs)%nat ->
            (0 <= indice_especificado (muestras_por_bit s) i
             < Z.of_nat (length (repeat 0%R m)))%Z).
  { intros i Hi. rewrite repeat_length.
    replace (Z.of_nat m) with (Z.of_nat (length bs) * muestras_por_bit s)%Z
      by (unfold m; nia).
    now apply indice_especificado_cotas. }
  destruct (demodulacion_ask_devuelve butter s (repeat 0%R m) umbral bs ba
              (repeat 0%R m)) as (muestras & Hlen & Hnth & Hd);
    try assumption; try lia.
  { intros i Hi. apply Hin. assumption. }
  assert (E : muestras = repeat 0%R (length bs)).
  { rewrite <- Hlen. apply todos_iguales. intros i Hi. rewrite Hlen in Hi.
    rewrite (Hnth i Hi). apply nth_error_repeat.
    specialize (Hin i Hi). rewrite repeat_length in Hin. lia. }
  do 2 eexists. split; [exact Hd|].
  rewrite E, map_repeat. unfold decidir.
  split; intros Hu; destruct (Rgt_dec 0 umbral); try reflexivity; exfalso; lra.
Qed.

(** X16: a silent input is demodulated to one constant bit.  On an all-zero
    signal of [len(bits) * muestras_por_bit] samples every recovered bit is 0
    when the threshold is not negative, and every recovered bit is 1 when it
    is negative. *)
Theorem X16_demodular_silencio (butter : nat -> R -> result (list R * list R))
  (s : SistemaTelecom) (bs : list Z) (umbral : R) (ba : list R * list R)
  (a0 : R) (a' : list R) :
  (1 <= muestras_por_bit s)%Z -> fs s <> 0%Z -> bits s = Some bs ->
  butter 5%nat (IZR (fc s) / (IZR (fs s) / 2))%R = Ok ba ->
  snd ba = a0 :: a' -> a0 <> 0%R ->
  exists s' rec,
    demodulacion_ask butter s
      (repeat 0%R (length bs * Z.to_nat (muestras_por_bit s))) umbral
    = Ok (s', rec)
    /\ ((0 <= umbral)%R -> rec = repeat 0%Z (length bs))
    /\ ((umbral < 0)%R -> rec = repeat 1%Z (length bs)).
Proof.
  intros Hspb Hfs Hb Hbu Ha Ha0.
  exact (demodulacion_ask_silencio butter s bs umbral ba a0 a'
           Hspb Hfs Hb Hbu Ha Ha0).
Qed.

Lemma X16_demodular_silencio_testigo :
  exists s' rec,
    demodulacion_ask filtro_identidad sistema_ejemplo
      (repeat 0%R (length [1%Z; 0%Z] * Z.to_nat (muestras_por_bit sistema_ejemplo)))
      (1 / 2)
    = Ok (s', rec)
    /\ ((0 <= 1 / 2)%R -> rec = repeat 0%Z (length [1%Z; 0%Z]))
    /\ ((1 / 2 < 0)%R -> rec = repeat 1%Z (length [1%Z; 0%Z])).
Proof.
  apply (X16_demodular_silencio filtro_identidad sistema_ejemplo [1%Z; 0%Z]
           (1 / 2)%R ([1%R], [1%R]) 1%R []).
  - simpl. lia.
  - simpl. discriminate.
  - reflexivity.
  - reflexivity.
  - reflexivity.
  - lra.
Defined.

Lemma suma_arreglos_length (f : nat -> R) :
  forall (senal : list R) (j : nat),
    length (suma_arreglos senal (map f (seq j (length senal)))) = length senal.
Proof.
  intros senal j. unfold suma_arreglos.
  rewrite length_map, length_combine, length_map, length_seq. lia.
Qed.

(** Within the range of SNR where [10 ** (snr_db / 10)] is a finite float
    other than 0, the channel returns finite samples, as many as it got. *)
Lemma agregar_ruido_finito (z : nat -> R) (s : SistemaTelecom)
  (senal : list R) (snr_db : R) :
  (-3000 <= snr_db <= 3000)%R ->
  exists ruidosa,
    agregar_ruido z s senal snr_db
    = Ok (set_senal_ruidosa s (Finitos ruidosa), Finitos ruidosa)
    /\ length ruidosa = length senal.
Proof.
  intros Hr. unfold agregar_ruido.
  rewrite (proj1 (diez_elevado_finita snr_db Hr)).
  eexists. split; [reflexivity|]. unfold normal. apply suma_arreglos_length.
Qed.

(** The chain step by step, for a configuration with at least one sample
    per bit, an SNR in the range of the float power and a filter design
    [lfilter] accepts. *)
Lemma cadena_pasos (butter : nat -> R -> result (list R * list R))
  (azar : nat -> bool) (z : nat -> R) (tasa fport fmuestreo : Z)
  (num_bits : nat) (amplitud snr_db umbral : R) (ba : list R * list R)
  (a0 : R) (a' : list R) :
  (0 < tasa <= fmuestreo)%Z -> (fmuestreo < 2 ^ 53)%Z -> (0 < num_bits)%nat ->
  (-3000 <= snr_db <= 3000)%R ->
  butter 5%nat (IZR fport / (IZR fmuestreo / 2))%R = Ok ba ->
  snd ba = a0 :: a' -> a0 <> 0%R ->
  exists s0 senal t ruidosa s4 rec,
    __init__ tasa fport fmuestreo = Ok s0
    /\ (1 <= muestras_por_bit s0)%Z
    /\ fc s0 = fport /\ fs s0 = fmuestreo
    /\ modulacion_ask (fst (generar_bits azar s0 num_bits))
         (snd (generar_bits azar s0 num_bits)) amplitud
       = Ok (set_senal_modulada (fst (generar_bits azar s0 num_bits)) senal,
             (senal, t))
    /\ length senal = (num_bits * Z.to_nat (muestras_por_bit s0))%nat
    /\ agregar_ruido z
         (set_senal_modulada (fst (generar_bits azar s0 num_bits)) senal)
         senal snr_db
       = Ok (set_senal_ruidosa
               (set_senal_modulada (fst (generar_bits azar s0 num_bits)) senal)
               (Finitos ruidosa),
             Finitos ruidosa)
    /\ demodulacion_ask butter
         (set_senal_ruidosa
            (set_senal_modulada (fst (generar_bits azar s0 num_bits)) senal)
            (Finitos ruidosa))
         ruidosa umbral
       = Ok (s4, rec)
    /\ length rec = num_bits
    /\ cadena butter azar z tasa fport fmuestreo num_bits amplitud snr_db umbral
       = Termina
           (Ok (snd (generar_bits azar s0 num_bits), rec,
                Finito
                  (inject_Z
                     (Z.of_nat
                        (posiciones_distintas
                           (snd (generar_bits azar s0 num_bits)) rec))
                   / inject_Z (Z.of_nat num_bits))%Q)).
Proof.
  intros Hr Hf53 Hn Hsnr Hbu Ha Ha0.
  destruct (init_ok tasa fport fmuestreo)
    as (s0 & Hs0 & _ & Hfc & Hfs & _ & Hm & _); [lia | lia | lia |].
  assert (Hspb : (1 <= muestras_por_bit s0)%Z)
    by (apply (init_al_menos_uno tasa fport fmuestreo); assumption).
  set (g := generar_bits azar s0 num_bits).
  assert (Hgl : length (snd g) = num_bits)
    by (unfold g, generar_bits; cbn [snd]; now rewrite length_map, length_seq).
  assert (Hgs : muestras_por_bit (fst g) = muestras_por_bit s0) by reflexivity.
  destruct (modulacion_ask_muestras (fst g) (snd g) amplitud)
    as (senal & Hmod & Hlen & _); [rewrite Hgs; lia|].
  rewrite Hgl, Hgs in Hlen.
  set (s2 := set_senal_modulada (fst g) senal) in *.
  destruct (agregar_ruido_finito z s2 senal snr_db Hsnr)
    as (ruidosa & Hru & Hrl).
  set (s3 := set_senal_ruidosa s2 (Finitos ruidosa)) in *.
  assert (Hlf : lfilter (fst ba) (snd ba) (map Rabs ruidosa)
                = Ok (lfilter_rec (fst ba) a' a0 [] [] (map Rabs ruidosa))).
  { rewrite Ha. now apply lfilter_devuelve. }
  destruct (demodulacion_ask_devuelve butter s3 ruidosa umbral (snd g) ba
              (lfilter_rec (fst ba) a' a0 [] [] (map Rabs ruidosa)))
    as (muestras & Hml & _ & Hd); try assumption; try reflexivity.
  { simpl. lia. }
  { simpl. lia. }
  { simpl. now rewrite Hfc, Hfs. }
  { intros i Hi. rewrite lfilter_rec_length, length_map, Hrl, Hlen.
    simpl muestras_por_bit. rewrite Hgl in Hi.
    pose proof (indice_especificado_cotas (muestras_por_bit s0) num_bits i
                  Hspb Hi). nia. }
  set (rec := map (decidir umbral) muestras) in *.
  assert (Hrec : length rec = num_bits)
    by (unfold rec; now rewrite length_map, Hml).
  exists s0, senal. eexists. exists ruidosa, (set_bits_recuperados s3 rec), rec.
  split; [assumption|]. split; [assumption|].
  split; [assumption|]. split; [assumption|]. split; [exact Hmod|].
  split; [assumption|]. split; [exact Hru|]. split; [exact Hd|].
  split; [assumption|].
  unfold cadena. rewrite Hs0. fold g. rewrite Hmod. cbn [fst snd].
  fold s2. rewrite Hru. fold s3. rewrite Hd. cbn [bind fst snd].
  destruct (calcular_ber_valor (set_bits_recuperados s3 rec) (snd g) rec)
    as (Hv & _); try reflexivity.
  { now rewrite Hgl, Hrec. }
  { intros E. rewrite E in Hgl. simpl in Hgl. lia. }
  rewrite Hv. cbn [bind]. now rewrite Hgl.
Qed.

(** X17: the main block runs to the end.  For a bit rate that is positive
    and at most the sample rate, a sample rate below 2^53, at least one bit,
    an SNR between -3000 dB and 3000 dB (where [10 ** (snr_db / 10)] is a
    finite float other than 0) and a recursive filter design with a
    numerator, the chain returns for every draw of bits and noise, every
    amplitude and threshold: it recovers as many bits as it sent, and the
    BER is the fraction of differing positions, between 0 and 1. *)
Theorem X17_cadena_completa (butter : nat -> R -> result (list R * list R))
  (azar : nat -> bool) (z : nat -> R) (tasa fport fmuestreo : Z)
  (num_bits : nat) (amplitud snr_db umbral : R) (ba : list R * list R)
  (a0 : R) (a' : list R) :
  (0 < tasa <= fmuestreo)%Z -> (fmuestreo < 2 ^ 53)%Z -> (0 < num_bits)%nat ->
  (-3000 <= snr_db <= 3000)%R ->
  butter 5%nat (IZR fport / (IZR fmuestreo / 2))%R = Ok ba ->
  fst ba <> [] -> snd ba = a0 :: a' -> a0 <> 0%R -> a' <> [] ->
  exists enviados rec q,
    cadena butter azar z tasa fport fmuestreo num_bits amplitud snr_db umbral
    = Termina (Ok (enviados, rec, Finito q))
    /\ length enviados = num_bits
    /\ length rec = num_bits
    /\ q = (inject_Z (Z.of_nat (posiciones_distintas enviados rec))
            / inject_Z (Z.of_nat num_bits))%Q
    /\ (0 <= q)%Q /\ (q <= 1)%Q.
Proof.
  intros Hr Hf53 Hn Hsnr Hbu _ Ha Ha0 _.
  destruct (cadena_pasos butter azar z tasa fport fmuestreo num_bits amplitud
              snr_db umbral ba a0 a' Hr Hf53 Hn Hsnr Hbu Ha Ha0)
    as (s0 & senal & t & ruidosa & s4 & rec & _ & _ & _ & _ & _ & _ & _ & _
        & Hrec & Hc).
  assert (Hgl : length (snd (generar_bits azar s0 num_bits)) = num_bits)
    by (unfold generar_bits; cbn [snd]; now rewrite length_map, length_seq).
  do 3 eexists. split; [exact Hc|]. split; [assumption|].
  split; [assumption|]. split; [reflexivity|].
  apply razon_en_unidad; [assumption|].
  rewrite <- Hgl at 2. apply posiciones_distintas_cota.
Qed.

(** The main block at a carrier of a quarter of the sample rate, where the
    cutoff is 1/2, with ones for bits and no noise drawn. *)
Lemma X17_cadena_completa_testigo :
  exists enviados rec q,
    cadena butter_un_medio (fun _ => true) (fun _ => 0%R) 1000 11025 44100 10
      1 5 (1 / 2)
    = Termina (Ok (enviados, rec, Finito q))
    /\ length enviados = 10%nat
    /\ length rec = 10%nat
    /\ q = (inject_Z (Z.of_nat (posiciones_distintas enviados rec))
            / inject_Z (Z.of_nat 10))%Q
    /\ (0 <= q)%Q /\ (q <= 1)%Q.
Proof.
  eapply (X17_cadena_completa butter_un_medio (fun _ => true) (fun _ => 0%R)
           1000 11025 44100 10 1%R 5%R (1 / 2)%R _ 1%R
           [0; a2_un_medio; 0; a4_un_medio; 0]%R).
  - lia.
  - reflexivity.
  - lia.
  - lra.
  - reflexivity.
  - discriminate.
  - reflexivity.
  - lra.
  - discriminate.
Defined.

Lemma generar_bits_ceros (s : SistemaTelecom) (n : nat) :
  snd (generar_bits (fun _ => false) s n) = repeat 0%Z n.
Proof.
  unfold generar_bits. cbn [snd]. generalize 0%nat.
  induction n as [|n IH]; intros j; simpl; [reflexivity|]. now rewrite IH.
Qed.

(** X18: silence goes through the chain unharmed.  When the generator draws
    only zeros, the chain returns the all-zero sequence as sent and as
    recovered and a BER equal to 0, for every noise draw, every amplitude,
    every SNR between -3000 dB and 3000 dB and every threshold that is not
    negative. *)
Theorem X18_cadena_de_ceros (butter : nat -> R -> result (list R * list R))
  (z : nat -> R) (tasa fport fmuestreo : Z) (num_bits : nat)
  (amplitud snr_db umbral : R) (ba : list R * list R) (a0 : R) (a' : list R) :
  (0 < tasa <= fmuestreo)%Z -> (fmuestreo < 2 ^ 53)%Z -> (0 < num_bits)%nat ->
  (-3000 <= snr_db <= 3000)%R ->
  butter 5%nat (IZR fport / (IZR fmuestreo / 2))%R = Ok ba ->
  fst ba <> [] -> snd ba = a0 :: a' -> a0 <> 0%R -> a' <> [] ->
  (0 <= umbral)%R ->
  exists q,
    cadena butter (fun _ => false) z tasa fport fmuestreo num_bits amplitud
      snr_db umbral
    = Termina (Ok (repeat 0%Z num_bits, repeat 0%Z num_bits, Finito q))
    /\ (q == 0)%Q.
Proof.
  intros Hr Hf53 Hn Hsnr Hbu _ Ha Ha0 _ Hu.
  destruct (cadena_pasos butter (fun _ => false) z tasa fport fmuestreo num_bits
              amplitud snr_db umbral ba a0 a' Hr Hf53 Hn Hsnr Hbu Ha Ha0)
    as (s0 & senal & t & ruidosa & s4 & rec & Hs0 & Hspb & Hfc & Hfs & Hmod
        & Hlen & Hru & Hd & Hrec & Hc).
  set (g := generar_bits (fun _ => false) s0 num_bits) in *.
  assert (Hg : snd g = repeat 0%Z num_bits) by apply generar_bits_ceros.
  assert (Hsenal : senal
                   = repeat 0%R (num_bits * Z.to_nat (muestras_por_bit s0))).
  { destruct (modulacion_ask_sin_unos (fst g) (snd g) amplitud) as (t' & Hm').
    - simpl. lia.
    - rewrite Hg. apply Forall_forall. intros b Hb.
      apply repeat_spec in Hb. subst b. discriminate.
    - rewrite Hmod in Hm'. injection Hm' as _ Hm' _.
      rewrite Hm', length_map, length_seq. reflexivity. }
  rewrite Hsenal in Hru, Hd.
  rewrite (agregar_ruido_ceros z _ _ snr_db Hsnr) in Hru.
  injection Hru as Hru.
  destruct (demodulacion_ask_silencio butter
              (set_senal_ruidosa
                 (set_senal_modulada (fst g)
                    (repeat 0%R (num_bits * Z.to_nat (muestras_por_bit s0))))
                 (Finitos ruidosa))
              (snd g) umbral ba a0 a')
    as (s' & rec' & Hd' & H0 & _); try assumption; try reflexivity.
  { simpl. lia. }
  { simpl. now rewrite Hfc, Hfs. }
  rewrite Hg, repeat_length in Hd'.
  cbn [muestras_por_bit set_senal_ruidosa set_senal_modulada generar_bits
       set_bits g fst] in Hd'.
  rewrite <- Hru in Hd.
  cbn [muestras_por_bit set_senal_ruidosa set_senal_modulada generar_bits
       set_bits g fst] in Hd.
  rewrite <- Hru in Hd'.
  rewrite Hd in Hd'. injection Hd' as _ Hrr.
  specialize (H0 Hu). rewrite <- Hrr, Hg, repeat_length in H0.
  rewrite Hc, Hg, H0. eexists. split; [reflexivity|].
  rewrite posiciones_distintas_refl. reflexivity.
Qed.

Lemma X18_cadena_de_ceros_testigo :
  exists q,
    cadena butter_un_medio (fun _ => false) (fun _ => 1%R) 1000 11025 44100 10
      1 5 (1 / 2)
    = Termina (Ok (repeat 0%Z 10, repeat 0%Z 10, Finito q))
    /\ (q == 0)%Q.
Proof.
  eapply (X18_cadena_de_ceros butter_un_medio (fun _ => 1%R) 1000 11025 44100 10
           1%R 5%R (1 / 2)%R _ 1%R [0; a2_un_medio; 0; a4_un_medio; 0]%R).
  - lia.
  - reflexivity.
  - lia.
  - lra.
  - reflexivity.
  - discriminate.
  - reflexivity.
  - lra.
  - discriminate.
  - lra.
Defined.

(** ** Modulator edge cases *)

(** A negative bit rate of magnitude at most the sample rate leaves a
    negative [muestras_por_bit], also when the quotient is rounded. *)
Lemma init_negativo (tasa fport fmuestreo : Z) (s : SistemaTelecom) :
  (tasa < 0)%Z -> (- tasa <= fmuestreo)%Z ->
  __init__ tasa fport fmuestreo = Ok s -> (muestras_por_bit s < 0)%Z.
Proof.
  intros Ht Hf H.
  destruct (init_devuelve _ _ _ _ H) as (_ & _ & _ & _ & _ & _ & _ & x & Hx & ->).
  destruct (true_divide_devuelve _ _ _ Hx) as (_ & _ & Hn).
  rewrite Hn by lia.
  pose proof (int_division_positiva_uno (Z.abs fmuestreo) (Z.abs tasa)
                ltac:(lia)).
  rewrite (Z.sgn_pos fmuestreo), (Z.sgn_neg tasa) by lia. lia.
Qed.

(** X19: a negative bit rate passes the constructor and leaves a negative
    [muestras_por_bit]; the modulator then raises the [ValueError] of
    [np.linspace] for every non-empty bit sequence.  An empty bit sequence is
    modulated to an empty waveform and time axis on every instance. *)
Theorem X19_modulacion_casos_limite (tasa fport fmuestreo : Z)
  (s : SistemaTelecom) (amplitud : R) :
  (tasa < 0)%Z -> (- tasa <= fmuestreo)%Z ->
  __init__ tasa fport fmuestreo = Ok s ->
  (muestras_por_bit s < 0)%Z
  /\ (forall bs, bs <> [] ->
        modulacion_ask s bs amplitud
        = Raise (ValueError "Number of samples must be non-negative"))
  /\ (forall s' : SistemaTelecom,
        modulacion_ask s' [] amplitud = Ok (set_senal_modulada s' [], ([], []))).
Proof.
  intros Ht Hf Hinit.
  assert (Hneg : (muestras_por_bit s < 0)%Z)
    by (apply (init_negativo tasa fport fmuestreo); assumption).
  split; [assumption|]. split.
  - intros bs Hne. unfold modulacion_ask.
    destruct (Z.ltb_spec (Z.of_nat (length bs) * muestras_por_bit s) 0) as [|Hge];
      [reflexivity|].
    destruct bs; [congruence|]. simpl length in Hge. nia.
  - intros s'. unfold modulacion_ask. simpl. reflexivity.
Qed.

Lemma X19_modulacion_casos_limite_testigo :
  exists s,
    __init__ (-1000) 5000 44100 = Ok s
    /\ (muestras_por_bit s < 0)%Z
    /\ (forall bs, bs <> [] ->
          modulacion_ask s bs 1
          = Raise (ValueError "Number of samples must be non-negative"))
    /\ (forall s' : SistemaTelecom,
          modulacion_ask s' [] 1 = Ok (set_senal_modulada s' [], ([], []))).
Proof.
  eexists. split; [reflexivity|].
  apply (X19_modulacion_casos_limite (-1000) 5000 44100 _ 1%R
           ltac:(reflexivity) ltac:(discriminate) eq_refl).
Defined.

(** ** The demodulator is causal *)

Lemma indexar_app (x y : list R) (k : Z) (v : R) :
  (0 <= k)%Z -> indexar x k = Ok v -> indexar (x ++ y) k = Ok v.
Proof.
  intros Hk H. apply indexar_no_negativo in H; [|assumption].
  apply indexar_no_negativo; [assumption|].
  rewrite nth_error_app1; [assumption|].
  apply nth_error_Some. congruence.
Qed.

Lemma indexar_todos_app (x y : list R) (puntos : list Z) :
  Forall (fun k => (0 <= k)%Z) puntos ->
  forall vs,
    indexar_todos x puntos = Ok vs -> indexar_todos (x ++ y) puntos = Ok vs.
Proof.
  induction 1 as [|k puntos Hk _ IH]; intros vs H; simpl in *; [assumption|].
  destruct (indexar x k) as [v|] eqn:Ev; simpl in H; [|discriminate].
  destruct (indexar_todos x puntos) as [vs'|]; simpl in H; [|discriminate].
  rewrite (indexar_app x y k v Hk Ev). simpl.
  rewrite (IH vs' eq_refl). exact H.
Qed.

(** X20: the filter is applied in one forward pass and the last sampling
    instant lies inside the signal, so samples that follow do not matter: if
    the demodulator returns on a signal, it returns the same bits on that
    signal followed by anything. *)
Theorem X20_demodulacion_causal (butter : nat -> R -> result (list R * list R))
  (s s' : SistemaTelecom) (senal extra : list R) (umbral : R) (rec : list Z) :
  (0 <= muestras_por_bit s)%Z ->
  demodulacion_ask butter s senal umbral = Ok (s', rec) ->
  demodulacion_ask butter s (senal ++ extra) umbral = Ok (s', rec).
Proof.
  intros Hspb H. unfold demodulacion_ask in *.
  destruct (fs s =? 0)%Z; [discriminate|].
  destruct (butter 5%nat _) as [ba|]; simpl in *; [|discriminate].
  rewrite map_app. unfold lfilter in *.
  destruct (snd ba) as [|a0 a']; [discriminate|].
  destruct (Req_dec_T a0 0); [discriminate|]. simpl in *.
  destruct (bits s) as [bs|]; [|discriminate].
  destruct (lfilter_rec_app (fst ba) a' a0 (map Rabs senal) (map Rabs extra)
              [] []) as [cola Hc].
  rewrite Hc.
  destruct (indexar_todos _ _) as [muestras|] eqn:Em; simpl in H; [|discriminate].
  assert (Hpos : Forall (fun k => (0 <= k)%Z)
                   (map (punto_muestreo s) (arange (length bs)))).
  2: { rewrite (indexar_todos_app _ cola _ Hpos muestras Em). exact H. }
  apply Forall_forall. intros k Hk. apply in_map_iff in Hk.
  destruct Hk as (i & <- & Hi). apply arange_In in Hi.
  destruct Hi as (j & _ & ->).
  rewrite punto_muestreo_especificado by assumption.
  rewrite indice_especificado_div. apply Z.div_pos; nia.
Qed.

Lemma X20_demodulacion_causal_testigo :
  exists s' rec,
    demodulacion_ask filtro_identidad sistema_ejemplo [0; 1; 0; 0]%R (1 / 2)
    = Ok (s', rec)
    /\ demodulacion_ask filtro_identidad sistema_ejemplo
         ([0; 1; 0; 0] ++ [7; 7; 7])%R (1 / 2)
       = Ok (s', rec).
Proof.
  pose proof (demodulacion_ejemplo (1 / 2)) as H1.
  do 2 eexists. split; [exact H1|].
  apply (X20_demodulacion_causal filtro_identidad sistema_ejemplo _
           [0; 1; 0; 0]%R [7; 7; 7]%R (1 / 2)%R _).
  - simpl. lia.
  - exact H1.
Defined.
